(** * mcp-guard: the block rule engine, the gated mirror, the router and the toggle

    A shallow embedding of [rules.ts] (the block rule engine), [server.ts]
    (gate registry, gated operation mirror, session router) and of the
    status check and toggle of [index.ts] (the toggle controller, read from
    its compiled form), followed by the properties the specification states
    about them. *)

From Stdlib Require Import ZArith Ascii String List Bool Lia.
From stdpp Require Import base option list strings pretty gmap.

Local Open Scope string_scope.
Local Open Scope list_scope.

(* ===================================================================== *)
(** * Values                                                              *)
(* ===================================================================== *)

(** The argument trees a tool call carries: what [JSON.parse] produces. An
    object lists its properties in the order [Object.values] enumerates
    them. The payload of a number plays no part in any function below. *)
#[local] Unset Elimination Schemes.
Inductive json : Type :=
| JNull
| JBool (b : bool)
| JNumber (n : Z)
| JString (s : string)
| JArray (items : list json)
| JObject (props : list (string * json)).
#[local] Set Elimination Schemes.

(** The double quote, as a one-character string. *)
Definition dquote : string := String (ascii_of_nat 34) EmptyString.

(** JavaScript's truthiness of a string and of a JSON value. *)
Definition string_truthy (s : string) : bool :=
  match s with EmptyString => false | String _ _ => true end.

Definition truthy (v : json) : bool :=
  match v with
  | JNull => false
  | JBool b => b
  | JNumber n => negb (n =? 0)%Z
  | JString s => string_truthy s
  | JArray _ | JObject _ => true
  end.

(** JavaScript strings are sequences of code units; they are written here as
    Rocq strings. [String.prototype.toLowerCase] belongs to the host
    language, not to the repository: the engine is stated over any
    implementation of it. *)
Class CaseFolding := toLowerCase : string -> string.

(** The folding of the letters A-Z, used to run the definitions. *)
Definition ascii_lower (c : ascii) : ascii :=
  let n := nat_of_ascii c in
  if (65 <=? n)%nat && (n <=? 90)%nat then ascii_of_nat (n + 32) else c.

Fixpoint ascii_toLowerCase (s : string) : string :=
  match s with
  | EmptyString => EmptyString
  | String c r => String (ascii_lower c) (ascii_toLowerCase r)
  end.

Definition AsciiFolding : CaseFolding := ascii_toLowerCase.

(** [s.startsWith(p)], the test [includes] makes at each position. *)
Fixpoint startsWith (s p : string) {struct p} : bool :=
  match p, s with
  | EmptyString, _ => true
  | String _ _, EmptyString => false
  | String c p', String d s' => if Ascii.eqb c d then startsWith s' p' else false
  end.

(** [s.includes(p)]: [p] occurs in [s] at some position. *)
Fixpoint includes (s p : string) : bool :=
  startsWith s p ||
  match s with
  | EmptyString => false
  | String _ s' => includes s' p
  end.

(* ===================================================================== *)
(** * rules.ts                                                            *)
(* ===================================================================== *)

Module Rules.

(** The inner function [walk] of [extractStrings]. The array [values] it
    pushes to is threaded through: [walk val values] is [values] after the
    call. [forEach] is a left fold over the elements. *)
Fixpoint walk (val : json) (values : list string) {struct val} : list string :=
  match val with
  | JString s => values ++ [s]
  | JArray items => fold_left (fun acc x => walk x acc) items values
  | JObject props => fold_left (fun acc kv => walk (snd kv) acc) props values
  | JNull | JBool _ | JNumber _ => values
  end.

Definition extractStrings (obj : json) : list string := walk obj [].

(** The value [shouldBlock] returns: [{ blocked, pattern? }]. *)
Record BlockResult : Type := mkBlockResult {
  blocked : bool;
  pattern : option string
}.

Section Engine.
Context {fold : CaseFolding}.

(** The test of line 8. *)
Definition matches (value pattern : string) : bool :=
  includes (toLowerCase value) (toLowerCase pattern).

(** The inner loop [for (const value of values)]: [true] when it reaches
    the [return]. *)
Fixpoint some_value_matches (pattern : string) (values : list string) : bool :=
  match values with
  | [] => false
  | value :: rest =>
      if matches value pattern then true else some_value_matches pattern rest
  end.

(** The outer loop [for (const pattern of patterns)], with its early
    [return] and the final [return { blocked: false }]. *)
Fixpoint scan (patterns : list string) (values : list string) : BlockResult :=
  match patterns with
  | [] => mkBlockResult false None
  | pattern :: rest =>
      if some_value_matches pattern values
      then mkBlockResult true (Some pattern)
      else scan rest values
  end.

Definition shouldBlock (args : json) (patterns : list string) : BlockResult :=
  let values := extractStrings args in
  scan patterns values.

End Engine.

End Rules.

(* ===================================================================== *)
(** * Effects                                                             *)
(* ===================================================================== *)

(** What a [throw] carries, as far as a [catch] of this program looks at
    it: an [Error] with its [message], or any other value with the text
    [String(err)] gives for it. *)
Inductive thrown : Type :=
| ErrorObject (message : string)
| OtherValue (asString : string).

(** A call either returns or throws. *)
Inductive outcome (A : Type) : Type :=
| Returns (a : A)
| Throws (err : thrown).
Arguments Returns {A} a.
Arguments Throws {A} err.

(** Code that reads and writes a state [S] and may throw. *)
Definition M (S A : Type) : Type := S -> outcome A * S.

Definition ret {S A} (a : A) : M S A := fun s => (Returns a, s).

Definition throw {S A} (err : thrown) : M S A := fun s => (Throws err, s).

Definition bind {S A B} (c : M S A) (k : A -> M S B) : M S B :=
  fun s =>
    match c s with
    | (Returns a, s') => k a s'
    | (Throws err, s') => (Throws err, s')
    end.

(** [try { body } catch (err) { handler }]. *)
Definition try_catch {S A} (body : M S A) (handler : thrown -> M S A) : M S A :=
  fun s =>
    match body s with
    | (Returns a, s') => (Returns a, s')
    | (Throws err, s') => handler err s'
    end.

(** The settled result of an awaited call. *)
Definition settle {S A} (o : outcome A) : M S A := fun s => (o, s).

Definition gets {S A} (f : S -> A) : M S A := fun s => (Returns (f s), s).

Definition modify {S} (f : S -> S) : M S unit := fun s => (Returns tt, f s).

Declare Scope mcp_scope.
Delimit Scope mcp_scope with mcp.
Notation "'let*' x ':=' c 'in' k" := (bind c (fun x => k))
  (at level 10, x name, c at level 100, k at level 200) : mcp_scope.
Notation "c '>>' k" := (bind c (fun _ => k))
  (at level 100, k at level 200, right associativity) : mcp_scope.
Local Open Scope mcp_scope.

(* ===================================================================== *)
(** * server.ts                                                           *)
(* ===================================================================== *)

Module Server.

(** ** types.ts *)

(** [interface ServerConfig], as the four property reads the program makes
    of a value it takes for one. A field is [None] where the read gives
    [undefined]; types.ts requires [url], so a configured server has one. *)
Record ServerConfig : Type := mkServerConfig {
  url : option string;
  enabled : option bool;
  block : option (list string);
  blockMessage : option string
}.

(** [servers] lists the properties of the parsed object in the order
    [Object.keys] enumerates them. *)
Record GuardConfig : Type := mkGuardConfig {
  port : Z;
  servers : list (string * ServerConfig)
}.

(** ** The objects of the SDK *)

(** An entry of the upstream's [listTools] answer. *)
Record Tool : Type := mkTool {
  name : string;
  description : option string;
  inputSchema : option json;
  annotations : option json
}.

(** What the upstream's [callTool] resolves to, as far as the mirror reads it. *)
Record CallToolResult : Type := mkCallToolResult {
  result_content : option (list json);
  result_isError : option bool
}.

(** What a mirrored tool answers. *)
Record ToolResult : Type := mkToolResult {
  content : list json;
  isError : bool
}.

Definition text_item (text : string) : json :=
  JObject [("type", JString "text"); ("text", JString text)].

(** [interface GateState]. A [Client] object is known by the number it got
    when [new Client] made it; what it answers is the host's business. *)
Record GateState : Type := mkGateState {
  upstream : nat;
  tools : list Tool
}.

(** The lines [log] writes, by the statement that writes them (their
    colours and exact bytes are left out). *)
Inductive LogLine : Type :=
| LogCall (tool : string) (args : json)
| LogBlocked (tool : string) (msg : string)
| LogError (tool : string) (message : string)
| LogConnected (gate : string) (ntools : nat)
| LogRequest (method : string) (gateName : string)
| LogUpstreamFailed (gate : string) (msg : string).

(** What the program does to the outside, in the order it does it.
    [RuleCheck] is no effect: it marks the call of [shouldBlock], so that
    a statement can say whether the engine ran. *)
Inductive event : Type :=
| Log (line : LogLine)
| RuleCheck (args : json) (patterns : list string)
| UpstreamConnect (client : nat) (url : string)
| UpstreamListTools (client : nat)
| UpstreamCallTool (client : nat) (tool : string) (arguments : json)
| ServerConnect (transport : nat)
| TransportHandle (transport : nat).

(** An incoming request: what [handleRequest] reads of it. [pathname] is
    [url.pathname]; [body] is what [readBody] settles to. *)
Record Request : Type := mkRequest {
  method : string;
  pathname : string;
  mcp_session_id : option string;
  body : outcome (option json)
}.

(** What a transport of the SDK did with a request: the session identifier
    it generated when the request initialised it (it then calls
    [onsessioninitialized]), and the reply it wrote, unless it threw. *)
Record TransportReply : Type := mkTransportReply {
  initialized : option string;
  reply : outcome json
}.

(** The world outside the program: the URL parser, the upstream servers
    behind the clients, and the SDK's server-side transports. *)
Record Host : Type := mkHost {
  url_parses : string -> bool;
  client_connect : nat -> string -> outcome unit;
  client_listTools : nat -> outcome (list Tool);
  client_callTool : nat -> string -> json -> outcome CallToolResult;
  server_connect : nat -> outcome unit;
  transport_handleRequest : nat -> Request -> option json -> TransportReply
}.

(** A tool as [registerTool] received it. *)
Record RegisteredTool : Type := mkRegisteredTool {
  reg_name : string;
  reg_title : string;
  reg_description : string;
  reg_annotations : option json;
  reg_handler : json -> M (list event) ToolResult
}.

Definition McpServer : Type := list RegisteredTool.

(** [interface Session]. *)
Record Session : Type := mkSession {
  gateName : string;
  server : McpServer;
  transport : nat
}.

(** The module's state: the two maps, the objects made so far, and what
    was done to the outside. *)
Record World : Type := mkWorld {
  sessions : gmap string Session;
  gates : gmap string GateState;
  objects : nat;
  trace : list event
}.

Definition push (e : event) (t : list event) : list event := t ++ [e].

Definition record (e : event) (w : World) : World :=
  mkWorld (sessions w) (gates w) (objects w) (push e (trace w)).

Definition note (e : event) : M (list event) unit := modify (push e).

Definition note_w (e : event) : M World unit := modify (record e).

(** [new ...]: the next object. *)
Definition fresh : M World nat :=
  fun w => (Returns (objects w), mkWorld (sessions w) (gates w) (S (objects w)) (trace w)).

Definition set_gate (k : string) (g : GateState) (w : World) : World :=
  mkWorld (sessions w) (<[k := g]> (gates w)) (objects w) (trace w).

Definition set_session (k : string) (s : Session) (w : World) : World :=
  mkWorld (<[k := s]> (sessions w)) (gates w) (objects w) (trace w).

Definition delete_session (k : string) (w : World) : World :=
  mkWorld (delete k (sessions w)) (gates w) (objects w) (trace w).

(** [err instanceof Error ? err.message : String(err)]. *)
Definition message_of (err : thrown) : string :=
  match err with
  | ErrorObject message => message
  | OtherValue asString => asString
  end.

(** What the router answers: a JSON payload under a status code, written by
    [res.writeHead] and [res.end], or whatever a transport wrote. *)
Inductive Response : Type :=
| JsonResponse (status : Z) (payload : json)
| TransportResponse (written : json).

(** ** Property reads on [config.servers] *)

Definition keys {V} (o : list (string * V)) : list string := map fst o.

Definition own_property {V} (o : list (string * V)) (k : string) : option V :=
  match find (fun kv => String.eqb (fst kv) k) o with
  | Some kv => Some (snd kv)
  | None => None
  end.

(** The properties every object parsed from JSON inherits from
    [Object.prototype]. *)
Definition object_prototype_names : list string :=
  [ "constructor"; "__defineGetter__"; "__defineSetter__"; "hasOwnProperty";
    "__lookupGetter__"; "__lookupSetter__"; "isPrototypeOf";
    "propertyIsEnumerable"; "toString"; "valueOf"; "__proto__";
    "toLocaleString" ].

(** A member of [Object.prototype] read as a [ServerConfig]: a function or
    an object, on which none of the four properties is defined. *)
Definition prototype_member : ServerConfig := mkServerConfig None None None None.

(** [config.servers[gateName]]: the own property, else the inherited one,
    else [undefined] ([None]). Every value it yields is truthy. *)
Definition get_server (servers : list (string * ServerConfig)) (gateName : string)
  : option ServerConfig :=
  match own_property servers gateName with
  | Some c => Some c
  | None =>
      if existsb (String.eqb gateName) object_prototype_names
      then Some prototype_member
      else None
  end.

(** [.replace(/^\//, "")] and [.replace(/\/$/, "")]. *)
Definition strip_leading_slash (s : string) : string :=
  match s with
  | String c r => if Ascii.eqb c "/" then r else s
  | EmptyString => s
  end.

Fixpoint strip_trailing_slash (s : string) : string :=
  match s with
  | EmptyString => EmptyString
  | String c EmptyString => if Ascii.eqb c "/" then EmptyString else s
  | String c r => String c (strip_trailing_slash r)
  end.

(** [url.pathname.replace(/^\//, "").replace(/\/$/, "")]. *)
Definition path_gate_name (req : Request) : string :=
  strip_trailing_slash (strip_leading_slash (pathname req)).

Section WithHost.
Context {fold : CaseFolding} (host : Host).

(** ** createGatedServer *)

(** Lines 79-95: the forwarded call in its [try]. *)
Definition forward (gate : GateState) (tool : Tool) (args : json)
  : M (list event) ToolResult :=
  try_catch
    (let* result :=
       (note (UpstreamCallTool (upstream gate) (name tool) args) >>
        settle (client_callTool host (upstream gate) (name tool) args)) in
     ret (mkToolResult (default [] (result_content result))
                       (default false (result_isError result))))
    (fun err =>
       let message := message_of err in
       note (Log (LogError (name tool) message)) >>
       ret (mkToolResult [text_item ("Upstream error: " +:+ message)] true)).

(** [gateConfig.enabled !== false]. *)
Definition enabled_not_false (gateConfig : ServerConfig) : bool :=
  match enabled gateConfig with
  | Some false => false
  | _ => true
  end.

(** [gateConfig.block?.length], as a condition. *)
Definition block_length_truthy (gateConfig : ServerConfig) : bool :=
  match block gateConfig with
  | Some (_ :: _) => true
  | _ => false
  end.

(** [`${result.pattern}`]. *)
Definition pattern_text (result : Rules.BlockResult) : string :=
  default "undefined" (Rules.pattern result).

(** Lines 65-96: the handler registered for [tool]. *)
Definition handler (gate : GateState) (gateConfig : ServerConfig) (tool : Tool)
    (args : json) : M (list event) ToolResult :=
  note (Log (LogCall (name tool) args)) >>
  if enabled_not_false gateConfig && block_length_truthy gateConfig then
    let patterns := default [] (block gateConfig) in
    note (RuleCheck args patterns) >>
    let result := Rules.shouldBlock args patterns in
    if Rules.blocked result then
      let msg :=
        default ("Blocked: matched pattern " +:+ dquote +:+ pattern_text result +:+ dquote)
                (blockMessage gateConfig) in
      note (Log (LogBlocked (name tool) msg)) >>
      ret (mkToolResult [text_item ("⛔ " +:+ msg)] true)
    else forward gate tool args
  else forward gate tool args.

Definition createGatedServer (gate : GateState) (gateConfig : ServerConfig) : McpServer :=
  map (fun tool =>
         mkRegisteredTool
           (name tool)
           (name tool)
           (default "" (description tool))
           (match annotations tool with
            | Some a => if truthy a then Some a else None
            | None => None
            end)
           (handler gate gateConfig tool))
      (tools gate).

(** ** connectUpstream and getGate *)

(** [connectUpstream] up to its first [await]: [new URL(config.url)] may
    throw; [new Client] makes the client; [client.connect] starts the
    connection. *)
Definition connectUpstream_start (name : string) (config : ServerConfig)
  : M World (nat * string) :=
  match url config with
  | Some u =>
      if url_parses host u then
        let* client := fresh in
        note_w (UpstreamConnect client u) >>
        ret (client, u)
      else throw (ErrorObject "Invalid URL")
  | None => throw (ErrorObject "Invalid URL")
  end.

(** [connectUpstream] from its first [await] on: the connection settles,
    the tools are listed, the gate is returned. None of this reads or
    writes the two maps. *)
Definition connectUpstream_finish (name : string) (client : nat) (u : string)
  : M World GateState :=
  settle (client_connect host client u) >>
  let* tools :=
    (note_w (UpstreamListTools client) >>
     settle (client_listTools host client)) in
  note_w (Log (LogConnected name (length tools))) >>
  ret (mkGateState client tools).

Definition connectUpstream (name : string) (config : ServerConfig) : M World GateState :=
  let* started := connectUpstream_start name config in
  connectUpstream_finish name (fst started) (snd started).

(** [gates.set(name, gate); return gate]. *)
Definition cache_gate (name : string) (gate : GateState) : M World GateState :=
  modify (set_gate name gate) >> ret gate.

(** [getGate], run with nothing else in between. *)
Definition getGate (name : string) (config : ServerConfig) : M World GateState :=
  let* cached := gets (fun w => gates w !! name) in
  match cached with
  | Some gate => ret gate
  | None =>
      let* gate := connectUpstream name config in
      cache_gate name gate
  end.

(** A call of [getGate] as the event loop runs it: in one piece up to the
    [await] of line 48, and in one more piece from there. Other code runs
    between the two. *)
Inductive GetGateCall : Type :=
| Called (name : string) (config : ServerConfig)
| Awaiting (name : string) (client : nat) (u : string)
| Settled (result : outcome GateState).

Definition resume (call : GetGateCall) (w : World) : GetGateCall * World :=
  match call with
  | Called name config =>
      match gates w !! name with
      | Some gate => (Settled (Returns gate), w)
      | None =>
          match connectUpstream_start name config w with
          | (Returns started, w') => (Awaiting name (fst started) (snd started), w')
          | (Throws err, w') => (Settled (Throws err), w')
          end
      end
  | Awaiting name client u =>
      let (result, w') :=
        (let* gate := connectUpstream_finish name client u in
         cache_gate name gate) w in
      (Settled result, w')
  | Settled _ => (call, w)
  end.

(** Several calls in flight; [schedule] names, turn by turn, the call the
    event loop resumes. *)
Fixpoint run (schedule : list nat) (calls : list GetGateCall) (w : World)
  : list GetGateCall * World :=
  match schedule with
  | [] => (calls, w)
  | i :: rest =>
      match calls !! i with
      | Some call =>
          let (call', w') := resume call w in
          run rest (<[i := call']> calls) w'
      | None => run rest calls w
      end
  end.

(** ** handleRequest *)

(** [transport.handleRequest(req, res, body)] on the transport made for
    [session]; its [onsessioninitialized] stores the session. *)
Definition run_transport (session : Session) (req : Request) (parsed : option json)
  : M World Response :=
  note_w (TransportHandle (transport session)) >>
  let r := transport_handleRequest host (transport session) req parsed in
  (match initialized r with
   | Some sid => modify (set_session sid session)
   | None => ret tt
   end) >>
  let* written := settle (reply r) in
  ret (TransportResponse written).

(** The header, when it is a truthy string. *)
Definition session_id (req : Request) : option string :=
  match mcp_session_id req with
  | Some sid => if string_truthy sid then Some sid else None
  | None => None
  end.

Definition gate_names (config : GuardConfig) : json :=
  JArray (map JString (keys (servers config))).

(** Lines 155-178: a new session. *)
Definition new_session (req : Request) (gateName : string) (gateConfig : ServerConfig)
  : M World Response :=
  let* got :=
    try_catch
      (let* gate := getGate gateName gateConfig in ret (inl gate))
      (fun err =>
         let msg := message_of err in
         note_w (Log (LogUpstreamFailed gateName msg)) >>
         ret (inr (JsonResponse 502
                     (JObject [("error",
                                JString ("Failed to connect to upstream: " +:+ msg))])))) in
  match got with
  | inr response => ret response
  | inl gate =>
      let server := createGatedServer gate gateConfig in
      let* transport := fresh in
      note_w (ServerConnect transport) >>
      settle (server_connect host transport) >>
      let* parsed := settle (body req) in
      run_transport (mkSession gateName server transport) req parsed
  end.

Definition handleRequest (req : Request) (config : GuardConfig) : M World Response :=
  let gateName := path_gate_name req in
  note_w (Log (LogRequest (method req) gateName)) >>
  if negb (string_truthy gateName) then
    ret (JsonResponse 200
           (JObject [("status", JString "ok"); ("gates", gate_names config)]))
  else
    match get_server (servers config) gateName with
    | None =>
        ret (JsonResponse 404
               (JObject [("error",
                          JString ("Unknown gate: " +:+ dquote +:+ gateName +:+ dquote));
                         ("available", gate_names config)]))
    | Some gateConfig =>
        let sessionId := session_id req in
        let* known :=
          gets (fun w =>
                  match sessionId with
                  | Some sid => option_map (pair sid) (sessions w !! sid)
                  | None => None
                  end) in
        match known with
        | Some (sid, session) =>
            if String.eqb (method req) "DELETE" then
              let* response := run_transport session req None in
              modify (delete_session sid) >>
              ret response
            else
              let* parsed :=
                (if String.eqb (method req) "POST"
                 then settle (body req) else ret None) in
              run_transport session req parsed
        | None =>
            match sessionId with
            | Some _ =>
                ret (JsonResponse 404
                       (JObject [("jsonrpc", JString "2.0");
                                 ("error",
                                  JObject [("code", JNumber (-32001));
                                           ("message", JString "Session not found")]);
                                 ("id", JNull)]))
            | None =>
                if negb (String.eqb (method req) "POST") then
                  ret (JsonResponse 400
                         (JObject [("error",
                                    JString "New sessions must start with POST")]))
                else new_session req gateName gateConfig
            end
        end
    end.

End WithHost.

End Server.

(* ===================================================================== *)
(** * index.ts: the toggle controller                                     *)
(* ===================================================================== *)

Module Toggle.

(** The second argument of [process.kill]: [0] only probes whether the
    process exists; ["SIGTERM"] asks it to terminate. *)
Inductive signal : Type :=
| Probe
| SIGTERM.

Inductive event : Type :=
| Kill (pid : Z) (sig : signal)
| Unlink
| WriteFile (text : string)
| Fetch (port : Z)
| Spawn (configPath : string)
| ConsoleLog (line : string).

(** The machine around the controller: which processes can be signalled,
    what [fetch] of the status endpoint settles to within its timeout
    ([Returns ok] with [res.ok], or a rejection, the abort on timeout
    included), and the process identifier [spawn] gives the child. *)
Record Host : Type := mkHost {
  process_alive : Z -> bool;
  fetch_status : Z -> outcome bool;
  spawned_pid : string -> Z
}.

(** The lock record [PID_FILE] ([None]: no such file) and what was done. *)
Record World : Type := mkWorld {
  pid_file : option string;
  trace : list event
}.

Definition note (e : event) : M World unit :=
  modify (fun w => mkWorld (pid_file w) (trace w ++ [e])).

(** ** parseInt(text.trim(), 10) *)

Definition is_space (c : ascii) : bool :=
  let n := nat_of_ascii c in
  ((9 <=? n)%nat && (n <=? 13)%nat) || (n =? 32)%nat.

Fixpoint trim_start (s : string) : string :=
  match s with
  | String c r => if is_space c then trim_start r else s
  | EmptyString => EmptyString
  end.

Fixpoint trim_end (s : string) : string :=
  match s with
  | EmptyString => EmptyString
  | String c r =>
      match trim_end r with
      | EmptyString => if is_space c then EmptyString else String c EmptyString
      | r' => String c r'
      end
  end.

Definition trim (s : string) : string := trim_end (trim_start s).

Definition digit (c : ascii) : option Z :=
  let n := nat_of_ascii c in
  if (48 <=? n)%nat && (n <=? 57)%nat then Some (Z.of_nat (n - 48)) else None.

(** The longest prefix of decimal digits, read as a number; [acc] is
    [None] until a digit was read. *)
Fixpoint digits (s : string) (acc : option Z) : option Z :=
  match s with
  | String c r =>
      match digit c with
      | Some d => digits r (Some (10 * default 0 acc + d))%Z
      | None => acc
      end
  | EmptyString => acc
  end.

(** [parseInt(s, 10)]; [None] is [NaN]. *)
Definition parseInt (s : string) : option Z :=
  match trim_start s with
  | String c r =>
      if Ascii.eqb c "-" then Z.opp <$> digits r None
      else if Ascii.eqb c "+" then digits r None
      else digits (String c r) None
  | EmptyString => None
  end.

Section WithHost.
Context (host : Host).

(** [process.kill(pid, sig)]: throws when there is no such process. *)
Definition process_kill (pid : Z) (sig : signal) : M World unit :=
  note (Kill pid sig) >>
  if process_alive host pid then ret tt else throw (ErrorObject "kill ESRCH").

(** [unlinkSync(PID_FILE)]: throws when there is no such file. *)
Definition unlinkSync : M World unit :=
  let* present := gets pid_file in
  match present with
  | Some _ =>
      modify (fun w => mkWorld None (trace w)) >> note Unlink
  | None => throw (ErrorObject "ENOENT: no such file or directory")
  end.

Definition writeFileSync (text : string) : M World unit :=
  modify (fun w => mkWorld (Some text) (trace w)) >> note (WriteFile text).

Definition isProcessRunning (pid : Z) : M World bool :=
  try_catch (process_kill pid Probe >> ret true) (fun _ => ret false).

(** [undefined] is [None]. *)
Definition getRunningPid (port : Z) : M World (option Z) :=
  let* record := gets pid_file in
  match record with
  | None => ret None
  | Some text =>
      match parseInt (trim text) with
      | None => unlinkSync >> ret None
      | Some pid =>
          let* running := isProcessRunning pid in
          if negb running then unlinkSync >> ret None
          else
            let* ok :=
              try_catch
                (note (Fetch port) >> settle (fetch_status host port))
                (fun _ => ret false) in
            if ok then ret (Some pid)
            else unlinkSync >> ret None
      end
  end.

Definition turnOff (pid : Z) : M World unit :=
  process_kill pid SIGTERM >>
  unlinkSync >>
  note (ConsoleLog "MCP Guard off").

Definition turnOn (configPath : string) (port : Z) : M World unit :=
  note (Spawn configPath) >>
  writeFileSync (pretty (spawned_pid host configPath)) >>
  note (ConsoleLog "MCP Guard on").

(** Lines 395-400 of [main]: [if (pid)] is false for [undefined] and for 0. *)
Definition toggle (configPath : string) (port : Z) : M World unit :=
  let* pid := getRunningPid port in
  match pid with
  | Some p => if (p =? 0)%Z then turnOn configPath port else turnOff p
  | None => turnOn configPath port
  end.

End WithHost.

(** A termination signal in the trace. *)
Definition is_termination (e : event) : bool :=
  match e with
  | Kill _ SIGTERM => true
  | _ => false
  end.

End Toggle.

(* ===================================================================== *)
(** * index.ts: arguments and configuration                               *)
(* ===================================================================== *)

Module Cli.

(** What [console.log] prints before the process exits. *)
Inductive Line : Type :=
| ConfigRequiresPath
| Help
| NoConfigFound
| ConfigNotFound (resolved : list string)
| MustHaveServer.

(** How a function of the command line ends: it returns, or the process
    exits under a code after printing a line, or it throws. *)
Inductive ended (A : Type) : Type :=
| Done (a : A)
| Exit (code : Z) (printed : Line)
| Crash (err : thrown).
Arguments Done {A} a.
Arguments Exit {A} code printed.
Arguments Crash {A} err.

(** ** parseArgs *)

(** The three variables of [parseArgs]. *)
Record Args : Type := mkArgs {
  configPath : option string;
  serve : bool;
  debug : bool
}.

(** The loop of [parseArgs] from position [i] on: [args] is [argv] from [i],
    [acc] holds the variables. *)
Fixpoint parse_from (args : list string) (acc : Args) : ended Args :=
  match args with
  | [] => Done acc
  | arg :: rest =>
      if String.eqb arg "--serve" then
        parse_from rest (mkArgs (configPath acc) true (debug acc))
      else if String.eqb arg "-d" || String.eqb arg "--debug" then
        parse_from rest (mkArgs (configPath acc) (serve acc) true)
      else if String.eqb arg "--config" || String.eqb arg "-c" then
        match rest with
        | [] => Exit 1 ConfigRequiresPath
        | path :: rest' => parse_from rest' (mkArgs (Some path) (serve acc) (debug acc))
        end
      else if String.eqb arg "--help" || String.eqb arg "-h" then
        Exit 0 Help
      else parse_from rest acc
  end.

Definition parseArgs (argv : list string) : ended Args :=
  parse_from (drop 2 argv) (mkArgs None false false).

(** ** The file system *)

(** A resolved path: the names from the root down. [join(dir, name)] adds a
    name at the end; [dirname] drops the last one and leaves the root as it
    is. *)
Definition path : Type := list string.

Definition join (dir : path) (name : string) : path := dir ++ [name].

Definition dirname (dir : path) : path := removelast dir.

Definition path_eqb (a b : path) : bool := bool_decide (a = b).

(** The process's surroundings: [resolve(".")], [homedir()], [resolve] of a
    path given on the command line, [existsSync], [readFileSync] and
    [JSON.parse]. *)
Record Host : Type := mkHost {
  cwd : path;
  home : path;
  resolve : string -> path;
  existsSync : path -> bool;
  readFileSync : path -> outcome string;
  parse : string -> outcome json
}.

Definition CONFIG_NAME : string := ".mcp-guard.json".

Section WithHost.
Context (host : Host).

Definition GLOBAL_CONFIG : path := join (home host) CONFIG_NAME.

(** ** findConfigUp *)

(** The [while] loop. The directory is held with its last name first, so
    that its parent is the tail; the root, whose parent is itself, is the
    empty list. [None] is the [break]. *)
Fixpoint climb (up : list string) : option path :=
  let dir := rev up in
  let candidate := join dir CONFIG_NAME in
  if existsSync host candidate then Some candidate
  else
    match up with
    | [] => None
    | _ :: parent => if path_eqb dir (home host) then None else climb parent
    end.

Definition findConfigUp : option path :=
  match climb (rev (cwd host)) with
  | Some candidate => Some candidate
  | None => if existsSync host GLOBAL_CONFIG then Some GLOBAL_CONFIG else None
  end.

(** ** resolveConfigPath *)

Definition resolveConfigPath (explicit : option string) : ended path :=
  match explicit with
  | Some e =>
      if string_truthy e then Done (resolve host e)
      else match findConfigUp with
           | Some found => Done found
           | None => Exit 1 NoConfigFound
           end
  | None =>
      match findConfigUp with
      | Some found => Done found
      | None => Exit 1 NoConfigFound
      end
  end.

(** ** loadConfig *)

(** [o.k = v] on an object: the value is replaced where the property stands,
    or the property is added at the end. *)
Fixpoint set_property (props : list (string * json)) (k : string) (v : json)
  : list (string * json) :=
  match props with
  | [] => [(k, v)]
  | (k', v') :: rest =>
      if String.eqb k' k then (k, v) :: rest else (k', v') :: set_property rest k v
  end.

(** [Object.keys(v).length === 0], negated. *)
Definition has_keys (v : json) : bool :=
  match v with
  | JObject props => match props with [] => false | _ :: _ => true end
  | JArray items => match items with [] => false | _ :: _ => true end
  | JString s => string_truthy s
  | JNull | JBool _ | JNumber _ => false
  end.

(** The checks of [loadConfig] on what [JSON.parse] gave. The module is
    strict code: reading a property of [null] throws, and so does setting
    one on a number, a boolean or a string. An array takes the property
    [port] but has no [servers]. *)
Definition check_config (config : json) : ended json :=
  match config with
  | JNull => Crash (ErrorObject "Cannot read properties of null (reading 'port')")
  | JBool _ | JNumber _ | JString _ => Crash (ErrorObject "Cannot create property 'port'")
  | JArray _ => Exit 1 MustHaveServer
  | JObject props =>
      let props' :=
        match Server.own_property props "port" with
        | Some p => if truthy p then props else set_property props "port" (JNumber 6427)
        | None => set_property props "port" (JNumber 6427)
        end in
      match Server.own_property props' "servers" with
      | Some servers =>
          if truthy servers && has_keys servers then Done (JObject props')
          else Exit 1 MustHaveServer
      | None => Exit 1 MustHaveServer
      end
  end.

Definition loadConfig (configPath : string) : ended json :=
  let resolved := resolve host configPath in
  if negb (existsSync host resolved) then Exit 1 (ConfigNotFound resolved)
  else
    match readFileSync host resolved with
    | Throws err => Crash err
    | Returns raw =>
        match parse host raw with
        | Throws err => Crash err
        | Returns config => check_config config
        end
    end.

End WithHost.

End Cli.

(* ===================================================================== *)
(** * The vocabulary of the specification                                 *)
(* ===================================================================== *)

(** [s] is a string leaf of [v]: [v] itself, or a string leaf of an element
    of the sequence [v], or of a value of the mapping [v]. *)
Inductive leaf_of : json -> string -> Prop :=
| leaf_here (s : string) : leaf_of (JString s) s
| leaf_element (items : list json) (x : json) (s : string) :
    In x items -> leaf_of x s -> leaf_of (JArray items) s
| leaf_value (props : list (string * json)) (k : string) (x : json) (s : string) :
    In (k, x) props -> leaf_of x s -> leaf_of (JObject props) s.

(** [p] occurs in [s] as a substring. *)
Definition occurs_in (p s : string) : Prop :=
  exists a b : string, s = a +:+ p +:+ b.

(** Case-insensitive containment: the folded pattern occurs in the folded value. *)
Definition contains_ci `{CaseFolding} (value pattern : string) : Prop :=
  occurs_in (toLowerCase pattern) (toLowerCase value).

(** Some string leaf of [args] contains [pattern], case-insensitively. *)
Definition hit `{CaseFolding} (args : json) (pattern : string) : Prop :=
  exists s : string, leaf_of args s /\ contains_ci s pattern.

(** [p] stands in [patterns] at a place before which no pattern hits, and hits. *)
Definition first_hit `{CaseFolding} (args : json) (patterns : list string) (p : string) : Prop :=
  exists before after : list string,
    patterns = before ++ p :: after /\
    (forall q, In q before -> ~ hit args q) /\
    hit args p.

(** [v] with every leaf that is no string replaced by [null]. *)
Fixpoint erase (v : json) : json :=
  match v with
  | JString s => JString s
  | JArray items => JArray (map erase items)
  | JObject props => JObject (map (fun kv => (fst kv, erase (snd kv))) props)
  | JNull | JBool _ | JNumber _ => JNull
  end.

(** [v] with every property name replaced by its image under [f]. *)
Fixpoint rekey (f : string -> string) (v : json) : json :=
  match v with
  | JArray items => JArray (map (rekey f) items)
  | JObject props => JObject (map (fun kv => (f (fst kv), rekey f (snd kv))) props)
  | JNull | JBool _ | JNumber _ | JString _ => v
  end.

(** The upstream calls, the engine's runs and the connection attempts a
    trace records. *)
Definition upstream_calls (t : list Server.event) : list (nat * string * json) :=
  flat_map (fun e => match e with
                     | Server.UpstreamCallTool c n a => [(c, n, a)]
                     | _ => []
                     end) t.

Definition rule_checks (t : list Server.event) : list (json * list string) :=
  flat_map (fun e => match e with
                     | Server.RuleCheck a ps => [(a, ps)]
                     | _ => []
                     end) t.

Definition connection_attempts (t : list Server.event) : list (nat * string) :=
  flat_map (fun e => match e with
                     | Server.UpstreamConnect c u => [(c, u)]
                     | _ => []
                     end) t.

(** The message of a blocked call: the configured one, else the default
    one, which names the pattern the engine reported. *)
Definition block_text (gateConfig : Server.ServerConfig) (result : Rules.BlockResult)
  : string :=
  default ("Blocked: matched pattern " +:+ dquote +:+ Server.pattern_text result +:+ dquote)
          (Server.blockMessage gateConfig).

(** An argument that takes part in no option with a value and asks for no help. *)
Definition plain_flag (arg : string) : bool :=
  negb (String.eqb arg "--config" || String.eqb arg "-c"
        || String.eqb arg "--help" || String.eqb arg "-h").

Definition is_serve (arg : string) : bool := String.eqb arg "--serve".

Definition is_debug (arg : string) : bool :=
  String.eqb arg "-d" || String.eqb arg "--debug".

(** The port [check_config] leaves in the configuration. *)
Definition effective_port (original : list (string * json)) : json :=
  match Server.own_property original "port" with
  | Some p => if truthy p then p else JNumber 6427
  | None => JNumber 6427
  end.

(** Every connection attempt so far was made on a client of its own, and
    those clients are objects already made. *)
Definition attempts_apart (w : Server.World) : Prop :=
  NoDup (map fst (connection_attempts (Server.trace w)))
  /\ Forall (fun c => c < Server.objects w)
            (map fst (connection_attempts (Server.trace w))).

(** No character of [s] is white space. *)
Fixpoint no_space (s : string) : bool :=
  match s with
  | EmptyString => true
  | String c r => negb (Toggle.is_space c) && no_space r
  end.

(** The payloads the router writes itself. *)
Definition session_not_found : Server.Response :=
  Server.JsonResponse 404
    (JObject [("jsonrpc", JString "2.0");
              ("error", JObject [("code", JNumber (-32001));
                                 ("message", JString "Session not found")]);
              ("id", JNull)]).

Definition must_start_with_post : Server.Response :=
  Server.JsonResponse 400 (JObject [("error", JString "New sessions must start with POST")]).

Definition upstream_failed (msg : string) : Server.Response :=
  Server.JsonResponse 502
    (JObject [("error", JString ("Failed to connect to upstream: " +:+ msg))]).




(* ===================================================================== *)
(** * A configuration to run the definitions on                           *)
(* ===================================================================== *)

(** The scenario of the specification: one gate [db] with the patterns DROP
    and DELETE and the block message "no". *)
Module Scenario.
Import Server.

Definition db : ServerConfig :=
  mkServerConfig (Some "http://up/db") None (Some ["DROP"; "DELETE"]) (Some "no").

Definition db_disabled : ServerConfig :=
  mkServerConfig (Some "http://up/db") (Some false) (Some ["DROP"; "DELETE"]) (Some "no").

Definition config : GuardConfig := mkGuardConfig 6427 [("db", db)].

Definition execute_sql : Tool := mkTool "execute_sql" None None None.

Definition drop_table : json := JObject [("query", JString "DROP TABLE x")].

Definition select_one : json := JObject [("query", JString "SELECT 1")].

Definition rows : CallToolResult :=
  mkCallToolResult (Some [text_item "1"]) (Some false).

(** An upstream that accepts every connection and answers every call. *)
Definition up : Host :=
  mkHost (fun _ => true)
         (fun _ _ => Returns tt)
         (fun _ => Returns [execute_sql])
         (fun _ _ _ => Returns rows)
         (fun _ => Returns tt)
         (fun _ _ _ => mkTransportReply None (Returns JNull)).

(** An upstream whose calls and connections fail. *)
Definition down : Host :=
  mkHost (fun _ => true)
         (fun _ _ => Throws (ErrorObject "fetch failed"))
         (fun _ => Throws (ErrorObject "fetch failed"))
         (fun _ _ _ => Throws (ErrorObject "fetch failed"))
         (fun _ => Returns tt)
         (fun _ _ _ => mkTransportReply None (Returns JNull)).

(** An upstream that refuses the first client and accepts the later ones. *)
Definition flaky : Host :=
  mkHost (fun _ => true)
         (fun client _ =>
            if (client =? 0)%nat then Throws (ErrorObject "fetch failed") else Returns tt)
         (fun _ => Returns [execute_sql])
         (fun _ _ _ => Returns rows)
         (fun _ => Returns tt)
         (fun _ _ _ => mkTransportReply None (Returns JNull)).

Definition gate : GateState := mkGateState 0 [execute_sql].

Definition start : World := mkWorld ∅ ∅ 0 [].

Definition post (path : string) (session : option string) : Request :=
  mkRequest "POST" path session (Returns None).


(** A world with one live session [s1] on transport 7, bound to [db]. *)
Definition s1 : Session := mkSession "db" [] 7.

Definition live : World := mkWorld (<["s1" := s1]> ∅) ∅ 8 [].

Definition request (method : string) (path : string) (session : option string) : Request :=
  mkRequest method path session (Returns None).

End Scenario.

(** Machines for the toggle controller: no process under any identifier;
    a process that does not answer; a proxy that runs and answers. *)
Module Machine.
Import Toggle.

Definition dead : Host :=
  mkHost (fun _ => false) (fun _ => Throws (ErrorObject "fetch failed")) (fun _ => 4243%Z).

Definition hung : Host :=
  mkHost (fun _ => true)
         (fun _ => Throws (OtherValue "TimeoutError: The operation was aborted due to timeout"))
         (fun _ => 4243%Z).

Definition live : Host :=
  mkHost (fun _ => true) (fun _ => Returns true) (fun _ => 4243%Z).

Definition locked : World := mkWorld (Some "4242") [].

End Machine.

(** A project under the home directory with a configuration in its root, and
    a shell two directories further down. *)
Module Project.
Import Cli.

Definition file : json :=
  JObject [("port", JNumber 0);
           ("servers", JObject [("db", JObject [("url", JString "http://up/db")])])].

Definition host : Host :=
  mkHost ["home"; "u"; "proj"; "src"; "lib"]
         ["home"; "u"]
         (fun e => ["home"; "u"; "proj"; e])
         (fun p => bool_decide (p = ["home"; "u"; "proj"; ".mcp-guard.json"]))
         (fun _ => Returns "{}")
         (fun _ => Returns file).

End Project.

(* ===================================================================== *)
(** * Properties of the block rule engine                                 *)
(* ===================================================================== *)

Section JsonInduction.
Variable P : json -> Prop.
Hypothesis Pnull : P JNull.
Hypothesis Pbool : forall b, P (JBool b).
Hypothesis Pnumber : forall n, P (JNumber n).
Hypothesis Pstring : forall s, P (JString s).
Hypothesis Parray : forall items, Forall P items -> P (JArray items).
Hypothesis Pobject :
  forall props, Forall (fun kv => P (snd kv)) props -> P (JObject props).

Fixpoint json_ind (v : json) : P v :=
  match v with
  | JNull => Pnull
  | JBool b => Pbool b
  | JNumber n => Pnumber n
  | JString s => Pstring s
  | JArray items =>
      Parray items
        ((fix all (l : list json) : Forall P l :=
            match l with
            | [] => @List.Forall_nil _ P
            | x :: r => @List.Forall_cons _ P x r (json_ind x) (all r)
            end) items)
  | JObject props =>
      Pobject props
        ((fix all (l : list (string * json)) : Forall (fun kv => P (snd kv)) l :=
            match l with
            | [] => @List.Forall_nil _ _
            | kv :: r => @List.Forall_cons _ _ kv r (json_ind (snd kv)) (all r)
            end) props)
  end.
End JsonInduction.

Section StringFacts.

Lemma append_String (c : ascii) (a b : string) :
  String c a +:+ b = String c (a +:+ b).
Proof. reflexivity. Qed.

Lemma append_Empty (b : string) : EmptyString +:+ b = b.
Proof. reflexivity. Qed.

Lemma startsWith_spec (s p : string) :
  startsWith s p = true <-> exists b, s = p +:+ b.
Proof.
  revert s. induction p as [|c p IH]; intros s; simpl.
  - split; [intros _; exists s; reflexivity | reflexivity].
  - destruct s as [|d s]; simpl.
    + split; [discriminate | intros [b Hb]; discriminate].
    + destruct (Ascii.eqb_spec c d) as [->|Hne].
      * rewrite IH. split; intros [b Hb]; exists b;
          rewrite append_String in *; congruence.
      * split; [discriminate | intros [b Hb]; rewrite append_String in Hb; congruence].
Qed.

Lemma includes_spec (s p : string) :
  includes s p = true <-> occurs_in p s.
Proof.
  unfold occurs_in. induction s as [|d s IH]; simpl.
  - rewrite orb_false_r, startsWith_spec. split.
    + intros [b Hb]. exists EmptyString, b. exact Hb.
    + intros [a [b Hab]]. destruct a.
      * exists b. exact Hab.
      * rewrite append_String in Hab. discriminate.
  - rewrite orb_true_iff, startsWith_spec, IH. split.
    + intros [[b Hb] | [a [b Hab]]].
      * exists EmptyString, b. exact Hb.
      * exists (String d a), b. rewrite append_String. congruence.
    + intros [a [b Hab]]. destruct a as [|e a].
      * left. exists b. exact Hab.
      * right. exists a, b. rewrite append_String in Hab. congruence.
Qed.

Lemma includes_empty (s : string) : includes s EmptyString = true.
Proof. destruct s; reflexivity. Qed.

End StringFacts.

Section Extraction.

Lemma forEach_walk_array (items : list json) (values : list string) :
  Forall (fun x => forall acc, Rules.walk x acc = acc ++ Rules.walk x []) items ->
  fold_left (fun acc x => Rules.walk x acc) items values
  = values ++ flat_map Rules.extractStrings items.
Proof.
  intros Hall. revert values.
  induction Hall as [|x r Hx _ IH]; intros values; simpl.
  - now rewrite app_nil_r.
  - rewrite IH, Hx. unfold Rules.extractStrings. now rewrite <- app_assoc.
Qed.

Lemma forEach_walk_object (props : list (string * json)) (values : list string) :
  Forall (fun kv => forall acc, Rules.walk (snd kv) acc = acc ++ Rules.walk (snd kv) []) props ->
  fold_left (fun acc kv => Rules.walk (snd kv) acc) props values
  = values ++ flat_map (fun kv => Rules.extractStrings (snd kv)) props.
Proof.
  intros Hall. revert values.
  induction Hall as [|kv r Hx _ IH]; intros values; simpl.
  - now rewrite app_nil_r.
  - rewrite IH, Hx. unfold Rules.extractStrings. now rewrite <- app_assoc.
Qed.

(** [walk] only appends to the array it is given. *)
Lemma walk_appends (v : json) :
  forall values, Rules.walk v values = values ++ Rules.walk v [].
Proof.
  induction v using json_ind; intros values; simpl;
    try (now rewrite app_nil_r).
  - reflexivity.
  - rewrite (forEach_walk_array items values), (forEach_walk_array items []); auto.
  - rewrite (forEach_walk_object props values), (forEach_walk_object props []); auto.
Qed.

Lemma extractStrings_array (items : list json) :
  Rules.extractStrings (JArray items) = flat_map Rules.extractStrings items.
Proof.
  unfold Rules.extractStrings at 1. simpl.
  rewrite forEach_walk_array; [reflexivity|].
  apply Forall_forall. intros x _. apply walk_appends.
Qed.

Lemma extractStrings_object (props : list (string * json)) :
  Rules.extractStrings (JObject props)
  = flat_map (fun kv => Rules.extractStrings (snd kv)) props.
Proof.
  unfold Rules.extractStrings at 1. simpl.
  rewrite forEach_walk_object; [reflexivity|].
  apply Forall_forall. intros x _. apply walk_appends.
Qed.

(** The collected values are exactly the string leaves. *)
Lemma extractStrings_leaves (v : json) (s : string) :
  In s (Rules.extractStrings v) <-> leaf_of v s.
Proof.
  split.
  - revert s. induction v using json_ind; intros s0 Hin;
      try (now inversion Hin).
    + destruct Hin as [<-|[]]. constructor.
    + rewrite extractStrings_array in Hin.
      apply in_flat_map in Hin as [x [Hx Hs]].
      rewrite List.Forall_forall in H.
      apply (leaf_element items x); auto.
    + rewrite extractStrings_object in Hin.
      apply in_flat_map in Hin as [[k x] [Hx Hs]].
      rewrite List.Forall_forall in H.
      apply (leaf_value props k x); auto.
      apply (H (k, x)); auto.
  - induction 1 as [s|items x s Hx _ IH|props k x s Hx _ IH].
    + left. reflexivity.
    + rewrite extractStrings_array. apply in_flat_map. eauto.
    + rewrite extractStrings_object. apply in_flat_map.
      exists (k, x). auto.
Qed.

(** Leaves that are no strings contribute nothing. *)
Lemma extractStrings_erase (v : json) :
  Rules.extractStrings (erase v) = Rules.extractStrings v.
Proof.
  induction v using json_ind; try reflexivity.
  - simpl erase. rewrite !extractStrings_array.
    induction H as [|x r Hx _ IH]; simpl; [reflexivity|].
    now rewrite Hx, IH.
  - simpl erase. rewrite !extractStrings_object.
    induction H as [|kv r Hx _ IH]; simpl; [reflexivity|].
    now rewrite Hx, IH.
Qed.

End Extraction.

Section Scan.
Context {fold : CaseFolding}.

Lemma matches_spec (value pattern : string) :
  Rules.matches value pattern = true <-> contains_ci value pattern.
Proof. unfold Rules.matches, contains_ci. apply includes_spec. Qed.

Lemma some_value_matches_spec (pattern : string) (values : list string) :
  Rules.some_value_matches pattern values = true
  <-> exists value, In value values /\ Rules.matches value pattern = true.
Proof.
  induction values as [|v r IH]; simpl.
  - split; [discriminate | intros [x [[] _]]].
  - destruct (Rules.matches v pattern) eqn:Hm.
    + split; [intros _; exists v; auto | reflexivity].
    + rewrite IH. split.
      * intros [x [Hx Hxm]]. exists x. auto.
      * intros [x [[<-|Hx] Hxm]]; [congruence | eauto].
Qed.

Lemma some_value_matches_hit (args : json) (pattern : string) :
  Rules.some_value_matches pattern (Rules.extractStrings args) = true
  <-> hit args pattern.
Proof.
  rewrite some_value_matches_spec. unfold hit.
  split; intros [s [Hs Hm]]; exists s;
    (split; [now apply extractStrings_leaves | now apply matches_spec]).
Qed.

Lemma some_value_matches_miss (args : json) (pattern : string) :
  Rules.some_value_matches pattern (Rules.extractStrings args) = false
  <-> ~ hit args pattern.
Proof.
  rewrite <- some_value_matches_hit.
  destruct (Rules.some_value_matches _ _); split; congruence.
Qed.

Lemma scan_blocked (patterns values : list string) (p : string) :
  Rules.scan patterns values = Rules.mkBlockResult true (Some p)
  <-> exists before after,
        patterns = before ++ p :: after /\
        (forall q, In q before -> Rules.some_value_matches q values = false) /\
        Rules.some_value_matches p values = true.
Proof.
  induction patterns as [|q r IH]; simpl.
  - split; [discriminate|]. intros [before [after [Heq _]]].
    destruct before; discriminate.
  - destruct (Rules.some_value_matches q values) eqn:Hq.
    + split.
      * intros [= <-]. exists [], r. simpl. intuition.
      * intros [before [after [Heq [Hbefore Hp]]]].
        destruct before as [|b before]; simpl in Heq.
        -- congruence.
        -- injection Heq as <- _. rewrite (Hbefore q) in Hq; [discriminate|now left].
    + rewrite IH. split.
      * intros [before [after [-> [Hbefore Hp]]]].
        exists (q :: before), after. simpl. split; [reflexivity|]. split; [|exact Hp].
        intros x [<-|Hx]; auto.
      * intros [before [after [Heq [Hbefore Hp]]]].
        destruct before as [|b before]; simpl in Heq.
        -- injection Heq as <- _. congruence.
        -- injection Heq as <- ->. exists before, after.
           split; [reflexivity|]. split; [|exact Hp].
           intros x Hx. apply Hbefore. now right.
Qed.

Lemma scan_not_blocked (patterns values : list string) :
  Rules.scan patterns values = Rules.mkBlockResult false None
  <-> forall q, In q patterns -> Rules.some_value_matches q values = false.
Proof.
  induction patterns as [|q r IH]; simpl.
  - split; [intros _ q [] | reflexivity].
  - destruct (Rules.some_value_matches q values) eqn:Hq.
    + split; [discriminate|]. intros H. rewrite (H q) in Hq; [discriminate|now left].
    + rewrite IH. split.
      * intros H x [<-|Hx]; auto.
      * intros H x Hx. apply H. now right.
Qed.

Lemma scan_shape (patterns values : list string) :
  (exists p, In p patterns /\
             Rules.scan patterns values = Rules.mkBlockResult true (Some p))
  \/ Rules.scan patterns values = Rules.mkBlockResult false None.
Proof.
  induction patterns as [|q r IH]; simpl.
  - now right.
  - destruct (Rules.some_value_matches q values).
    + left. exists q. auto.
    + destruct IH as [[p [Hp Heq]]|Heq]; [left; exists p; auto | now right].
Qed.

Lemma shouldBlock_first_hit (args : json) (patterns : list string) (p : string) :
  Rules.shouldBlock args patterns = Rules.mkBlockResult true (Some p)
  <-> first_hit args patterns p.
Proof.
  unfold Rules.shouldBlock. cbv zeta. rewrite scan_blocked. unfold first_hit.
  split; intros [before [after [Heq [Hbefore Hp]]]]; exists before, after;
    (split; [exact Heq|]); split.
  - intros q Hq. apply some_value_matches_miss. auto.
  - now apply some_value_matches_hit.
  - intros q Hq. apply some_value_matches_miss. auto.
  - now apply some_value_matches_hit.
Qed.

Lemma shouldBlock_shape (args : json) (patterns : list string) :
  (exists p, In p patterns /\
             Rules.shouldBlock args patterns = Rules.mkBlockResult true (Some p))
  \/ Rules.shouldBlock args patterns = Rules.mkBlockResult false None.
Proof. apply scan_shape. Qed.

Lemma shouldBlock_no_hit (args : json) (patterns : list string) :
  Rules.shouldBlock args patterns = Rules.mkBlockResult false None
  <-> forall q, In q patterns -> ~ hit args q.
Proof.
  unfold Rules.shouldBlock. cbv zeta. rewrite scan_not_blocked.
  split; intros H q Hq; apply some_value_matches_miss; auto.
Qed.

End Scan.

Section EngineProperties.
Context {fold : CaseFolding}.

(** C1. [shouldBlock] returns blocked=true with pattern [p] exactly when [p]
    is the first pattern of the list, in list order, that some string leaf
    of the arguments (at any depth of mappings and sequences) contains
    case-insensitively; it is blocked exactly when some pattern of the list
    is so contained; it returns blocked=false exactly when no string leaf
    contains any pattern, and always when the pattern list is empty; and it
    returns nothing else. *)
Theorem shouldBlock_reports_first_hit (args : json) (patterns : list string) :
  (forall p, Rules.shouldBlock args patterns = Rules.mkBlockResult true (Some p)
             <-> first_hit args patterns p)
  /\ (Rules.blocked (Rules.shouldBlock args patterns) = true
      <-> exists q, In q patterns /\ hit args q)
  /\ (Rules.shouldBlock args patterns = Rules.mkBlockResult false None
      <-> forall q, In q patterns -> ~ hit args q)
  /\ ((exists p, Rules.shouldBlock args patterns = Rules.mkBlockResult true (Some p))
      \/ Rules.shouldBlock args patterns = Rules.mkBlockResult false None)
  /\ Rules.shouldBlock args [] = Rules.mkBlockResult false None.
Proof.
  pose proof (shouldBlock_first_hit args patterns) as Hfirst.
  pose proof (shouldBlock_no_hit args patterns) as Hnone.
  split; [exact Hfirst|]. split; [|split; [exact Hnone|split; [|reflexivity]]].
  - destruct (shouldBlock_shape args patterns) as [[p [Hin Hp]]|Hno].
    + rewrite Hp. simpl. split; [intros _|reflexivity].
      apply Hfirst in Hp as [before [after [_ [_ Hhit]]]]. eauto.
    + rewrite Hno. simpl. split; [discriminate|].
      intros [q [Hq Hhit]]. exfalso. exact (proj1 Hnone Hno q Hq Hhit).
  - destruct (shouldBlock_shape args patterns) as [[p [_ Hp]]|Hno];
      [left; eauto | now right].
Qed.

(** C10. Only string leaves count: replacing every numeric, boolean and null
    leaf by null changes no verdict, arguments with no string leaf are never
    blocked, and [{amount: 123}] is not blocked by the pattern "123".
    Conversely, where folding the empty string gives the empty string, an
    empty pattern in the list blocks every argument structure that has a
    string leaf, and alone it is the pattern reported. *)
Theorem only_string_leaves_are_matched (Hempty : toLowerCase EmptyString = EmptyString) :
  (forall args patterns,
      Rules.shouldBlock (erase args) patterns = Rules.shouldBlock args patterns)
  /\ (forall args patterns,
         (forall s, ~ leaf_of args s) ->
         Rules.shouldBlock args patterns = Rules.mkBlockResult false None)
  /\ Rules.shouldBlock (JObject [("amount", JNumber 123)]) ["123"]
     = Rules.mkBlockResult false None
  /\ (forall args patterns s,
         leaf_of args s -> In EmptyString patterns ->
         Rules.blocked (Rules.shouldBlock args patterns) = true)
  /\ (forall args s,
         leaf_of args s ->
         Rules.shouldBlock args [EmptyString]
         = Rules.mkBlockResult true (Some EmptyString)).
Proof.
  assert (Hany : forall args s, leaf_of args s -> hit args EmptyString).
  { intros args s Hs. exists s. split; [exact Hs|].
    apply matches_spec. unfold Rules.matches. rewrite Hempty.
    apply includes_empty. }
  split; [|split; [|split; [reflexivity|split]]].
  - intros args patterns. unfold Rules.shouldBlock.
    now rewrite extractStrings_erase.
  - intros args patterns Hnone.
    apply shouldBlock_no_hit.
    intros q _ [s [Hs _]]. exact (Hnone s Hs).
  - intros args patterns s Hs Hin.
    unfold Rules.shouldBlock. cbv zeta.
    destruct (scan_shape patterns (Rules.extractStrings args)) as [[p [_ Hp]]|Hno].
    + now rewrite Hp.
    + exfalso. rewrite scan_not_blocked in Hno.
      specialize (Hno EmptyString Hin).
      apply some_value_matches_miss in Hno. eauto.
  - intros args s Hs. unfold Rules.shouldBlock. cbv zeta. simpl.
    now rewrite (proj2 (some_value_matches_hit args EmptyString) (Hany args s Hs)).
Qed.

End EngineProperties.

(** The empty pattern against arguments with one string leaf and one number. *)
Lemma only_string_leaves_are_matched_witness :
  @Rules.shouldBlock AsciiFolding
    (JObject [("amount", JNumber 123); ("note", JString "hello")]) [EmptyString]
  = Rules.mkBlockResult true (Some EmptyString).
Proof.
  apply (proj2 (proj2 (proj2 (proj2
          (@only_string_leaves_are_matched AsciiFolding eq_refl)))) _ "hello").
  apply (leaf_value _ "note" (JString "hello")).
  - right. left. reflexivity.
  - constructor.
Defined.

(** The pattern "delete" matches the value "DELETE FROM users". *)
Example delete_matches_DELETE :
  @Rules.shouldBlock AsciiFolding
    (JObject [("q", JArray [JNull; JObject [("sql", JString "DELETE FROM users")]])])
    ["drop"; "delete"]
  = Rules.mkBlockResult true (Some "delete").
Proof. reflexivity. Qed.

(* ===================================================================== *)
(** * Properties of the gated operation mirror                            *)
(* ===================================================================== *)

Section Mirror.
Import Server.
Context {fold : CaseFolding} (host : Host).

Lemma upstream_calls_app (t u : list event) :
  upstream_calls (t ++ u) = upstream_calls t ++ upstream_calls u.
Proof. apply flat_map_app. Qed.

Lemma rule_checks_app (t u : list event) :
  rule_checks (t ++ u) = rule_checks t ++ rule_checks u.
Proof. apply flat_map_app. Qed.

(** What the [try] of lines 79-95 comes to, by what the upstream does. *)
Lemma forward_cases (gate : GateState) (tool : Tool) (args : json) (t : list event) :
  forward host gate tool args t =
  match client_callTool host (upstream gate) (name tool) args with
  | Returns result =>
      (Returns (mkToolResult (default [] (result_content result))
                             (default false (result_isError result))),
       t ++ [UpstreamCallTool (upstream gate) (name tool) args])
  | Throws err =>
      (Returns (mkToolResult [text_item ("Upstream error: " +:+ message_of err)] true),
       t ++ [UpstreamCallTool (upstream gate) (name tool) args;
             Log (LogError (name tool) (message_of err))])
  end.
Proof.
  unfold forward, try_catch, bind, note, modify, settle, ret, push.
  destruct (client_callTool host (upstream gate) (name tool) args); simpl.
  - reflexivity.
  - now rewrite <- app_assoc.
Qed.

Lemma forward_returns (gate : GateState) (tool : Tool) (args : json) (t : list event) :
  exists r new,
    forward host gate tool args t = (Returns r, t ++ new) /\
    upstream_calls new = [(upstream gate, name tool, args)] /\
    rule_checks new = [].
Proof.
  rewrite forward_cases.
  destruct (client_callTool host (upstream gate) (name tool) args); eauto.
Qed.

(** The handler, by the three ways through it. *)
Lemma handler_cases (gate : GateState) (gateConfig : ServerConfig) (tool : Tool)
    (args : json) (t : list event) :
  handler host gate gateConfig tool args t =
  if enabled_not_false gateConfig && block_length_truthy gateConfig then
    let patterns := default [] (block gateConfig) in
    let result := Rules.shouldBlock args patterns in
    if Rules.blocked result then
      (Returns (mkToolResult [text_item ("⛔ " +:+ block_text gateConfig result)] true),
       t ++ [Log (LogCall (name tool) args); RuleCheck args patterns;
             Log (LogBlocked (name tool) (block_text gateConfig result))])
    else
      forward host gate tool args
        (t ++ [Log (LogCall (name tool) args); RuleCheck args patterns])
  else forward host gate tool args (t ++ [Log (LogCall (name tool) args)]).
Proof.
  unfold handler, block_text.
  destruct (enabled_not_false gateConfig && block_length_truthy gateConfig).
  - cbv zeta.
    destruct (Rules.blocked (Rules.shouldBlock args (default [] (block gateConfig)))).
    + unfold bind, note, modify, ret, push. simpl. now rewrite <- !app_assoc.
    + unfold bind at 1 2, note, modify, push. simpl. now rewrite <- !app_assoc.
  - unfold bind at 1, note, modify, push. reflexivity.
Qed.

Lemma enabled_not_false_true (gateConfig : ServerConfig) :
  enabled gateConfig <> Some false -> enabled_not_false gateConfig = true.
Proof.
  unfold enabled_not_false. destruct (enabled gateConfig) as [[]|]; congruence.
Qed.

Lemma not_extended {A} (l : list A) (x : A) : l <> l ++ [x].
Proof.
  intros H. apply (f_equal (@length A)) in H.
  rewrite length_app in H. simpl in H. lia.
Qed.

(** C2. On a gate whose [enabled] is not [false] and whose block list is not
    empty, a call the engine reports blocked is answered with an error
    result ([isError] true) whose text is the mark of line 73 followed by
    [config.blockMessage] when that is set and otherwise by the default
    message naming the first pattern that hit; the upstream's [callTool]
    is not invoked. *)
Theorem blocked_call_is_answered_locally (gate : GateState) (gateConfig : ServerConfig)
    (tool : Tool) (args : json) (patterns : list string) (t : list event) :
  enabled gateConfig <> Some false ->
  block gateConfig = Some patterns ->
  patterns <> [] ->
  Rules.blocked (Rules.shouldBlock args patterns) = true ->
  exists p msg,
    first_hit args patterns p /\
    msg = default ("Blocked: matched pattern " +:+ dquote +:+ p +:+ dquote)
                  (blockMessage gateConfig) /\
    handler host gate gateConfig tool args t
    = (Returns (mkToolResult [text_item ("⛔ " +:+ msg)] true),
       t ++ [Log (LogCall (name tool) args); RuleCheck args patterns;
             Log (LogBlocked (name tool) msg)]) /\
    upstream_calls (snd (handler host gate gateConfig tool args t)) = upstream_calls t.
Proof.
  intros Hen Hblock Hne Hblocked.
  destruct (shouldBlock_shape args patterns) as [[p [_ Hp]]|Hno];
    [|rewrite Hno in Hblocked; discriminate].
  exists p, (default ("Blocked: matched pattern " +:+ dquote +:+ p +:+ dquote)
                     (blockMessage gateConfig)).
  split; [now apply shouldBlock_first_hit|]. split; [reflexivity|].
  assert (Hrun : handler host gate gateConfig tool args t
                 = (Returns (mkToolResult
                               [text_item ("⛔ " +:+
                                  default ("Blocked: matched pattern " +:+ dquote +:+ p +:+ dquote)
                                          (blockMessage gateConfig))] true),
                    t ++ [Log (LogCall (name tool) args); RuleCheck args patterns;
                          Log (LogBlocked (name tool)
                                 (default ("Blocked: matched pattern " +:+ dquote +:+ p +:+ dquote)
                                          (blockMessage gateConfig)))])).
  { rewrite handler_cases, (enabled_not_false_true _ Hen).
    unfold block_length_truthy. rewrite Hblock.
    destruct patterns as [|q r]; [congruence|]. simpl andb. cbv zeta iota.
    change (default [] (Some (q :: r))) with (q :: r).
    unfold block_text, pattern_text. rewrite Hp. reflexivity. }
  split; [exact Hrun|].
  rewrite Hrun. simpl snd. rewrite upstream_calls_app. simpl. apply app_nil_r.
Qed.

(** C3. On a gate whose [enabled] is [false], whatever its block list, and
    on a gate whose block list is absent or empty, the engine is not run
    and the call goes to the upstream with the tool's name and the
    arguments as they came. *)
Theorem disabled_gate_forwards_unchanged (gate : GateState) (gateConfig : ServerConfig)
    (tool : Tool) (args : json) (t : list event) :
  enabled gateConfig = Some false \/ block gateConfig = None \/ block gateConfig = Some [] ->
  handler host gate gateConfig tool args t
  = forward host gate tool args (t ++ [Log (LogCall (name tool) args)]) /\
  rule_checks (snd (handler host gate gateConfig tool args t)) = rule_checks t /\
  upstream_calls (snd (handler host gate gateConfig tool args t))
  = upstream_calls t ++ [(upstream gate, name tool, args)].
Proof.
  intros Hoff.
  assert (Hguard : enabled_not_false gateConfig && block_length_truthy gateConfig = false).
  { unfold enabled_not_false, block_length_truthy.
    destruct Hoff as [->|[->| ->]]; [reflexivity| |];
      destruct (enabled gateConfig) as [[]|]; reflexivity. }
  rewrite handler_cases, Hguard.
  split; [reflexivity|].
  destruct (forward_returns gate tool args (t ++ [Log (LogCall (name tool) args)]))
    as [r [new [-> [Hcalls Hchecks]]]].
  simpl snd.
  rewrite !rule_checks_app, !upstream_calls_app, Hcalls, Hchecks. simpl.
  now rewrite !app_nil_r.
Qed.

(** C4. The handler of a mirrored tool always returns a result and never
    raises. When it forwards the call (the upstream's [callTool] is
    invoked) and the upstream answers, it relays the answer's content and
    error flag, an absent content read as the empty list and an absent
    flag as false; when the upstream call raises, it returns an error
    result ([isError] true) whose text describes the failure. *)
Theorem mirror_relays_and_never_raises (gate : GateState) (gateConfig : ServerConfig)
    (tool : Tool) (args : json) (t : list event) :
  (exists r t', handler host gate gateConfig tool args t = (Returns r, t'))
  /\ (forall result,
         upstream_calls (snd (handler host gate gateConfig tool args t))
         = upstream_calls t ++ [(upstream gate, name tool, args)] ->
         client_callTool host (upstream gate) (name tool) args = Returns result ->
         fst (handler host gate gateConfig tool args t)
         = Returns (mkToolResult (default [] (result_content result))
                                 (default false (result_isError result))))
  /\ (forall c e,
         upstream_calls (snd (handler host gate gateConfig tool args t))
         = upstream_calls t ++ [(upstream gate, name tool, args)] ->
         client_callTool host (upstream gate) (name tool) args
         = Returns (mkCallToolResult (Some c) (Some e)) ->
         fst (handler host gate gateConfig tool args t) = Returns (mkToolResult c e))
  /\ (forall err,
         upstream_calls (snd (handler host gate gateConfig tool args t))
         = upstream_calls t ++ [(upstream gate, name tool, args)] ->
         client_callTool host (upstream gate) (name tool) args = Throws err ->
         fst (handler host gate gateConfig tool args t)
         = Returns (mkToolResult
                      [text_item ("Upstream error: " +:+ message_of err)] true)).
Proof.
  rewrite handler_cases.
  destruct (enabled_not_false gateConfig && block_length_truthy gateConfig);
    cbv zeta;
    [destruct (Rules.blocked (Rules.shouldBlock args (default [] (block gateConfig))))|].
  - split; [eauto|].
    assert (Hno : upstream_calls
                    (t ++ [Log (LogCall (name tool) args);
                           RuleCheck args (default [] (block gateConfig));
                           Log (LogBlocked (name tool)
                                  (block_text gateConfig
                                     (Rules.shouldBlock args (default [] (block gateConfig)))))])
                  <> upstream_calls t ++ [(upstream gate, name tool, args)]).
    { rewrite upstream_calls_app. simpl. rewrite app_nil_r. apply not_extended. }
    simpl snd. repeat split; intros; exfalso; now apply Hno.
  - rewrite forward_cases.
    destruct (client_callTool host (upstream gate) (name tool) args) as [res|err];
      (split; [eauto|]); repeat split; intros; simplify_eq; reflexivity.
  - rewrite forward_cases.
    destruct (client_callTool host (upstream gate) (name tool) args) as [res|err];
      (split; [eauto|]); repeat split; intros; simplify_eq; reflexivity.
Qed.

End Mirror.

(** The blocked call of the scenario. *)
Lemma blocked_call_is_answered_locally_witness :
  exists p msg,
    @first_hit AsciiFolding Scenario.drop_table ["DROP"; "DELETE"] p /\
    msg = default ("Blocked: matched pattern " +:+ dquote +:+ p +:+ dquote) (Some "no") /\
    @Server.handler AsciiFolding Scenario.up Scenario.gate Scenario.db
      Scenario.execute_sql Scenario.drop_table []
    = (Returns (Server.mkToolResult [Server.text_item ("⛔ " +:+ msg)] true),
       [] ++ [Server.Log (Server.LogCall "execute_sql" Scenario.drop_table);
              Server.RuleCheck Scenario.drop_table ["DROP"; "DELETE"];
              Server.Log (Server.LogBlocked "execute_sql" msg)]) /\
    upstream_calls (snd (@Server.handler AsciiFolding Scenario.up Scenario.gate Scenario.db
                           Scenario.execute_sql Scenario.drop_table []))
    = upstream_calls [].
Proof.
  apply (@blocked_call_is_answered_locally AsciiFolding Scenario.up Scenario.gate
           Scenario.db Scenario.execute_sql Scenario.drop_table ["DROP"; "DELETE"] []).
  - discriminate.
  - reflexivity.
  - discriminate.
  - reflexivity.
Defined.

(** The scenario of the specification: the blocked call's text is the mark
    and "no"; the other call is answered with the upstream's answer. *)
Example scenario_drop_table :
  fst (@Server.handler AsciiFolding Scenario.up Scenario.gate Scenario.db
         Scenario.execute_sql Scenario.drop_table [])
  = Returns (Server.mkToolResult [Server.text_item "⛔ no"] true).
Proof. reflexivity. Qed.

Example scenario_select :
  @Server.handler AsciiFolding Scenario.up Scenario.gate Scenario.db
    Scenario.execute_sql Scenario.select_one []
  = (Returns (Server.mkToolResult [Server.text_item "1"] false),
     [Server.Log (Server.LogCall "execute_sql" Scenario.select_one);
      Server.RuleCheck Scenario.select_one ["DROP"; "DELETE"];
      Server.UpstreamCallTool 0 "execute_sql" Scenario.select_one]).
Proof. reflexivity. Qed.

(** The same call on the gate with [enabled: false]: it is forwarded. *)
Lemma disabled_gate_forwards_unchanged_witness :
  @Server.handler AsciiFolding Scenario.up Scenario.gate Scenario.db_disabled
    Scenario.execute_sql Scenario.drop_table []
  = @Server.forward Scenario.up Scenario.gate Scenario.execute_sql Scenario.drop_table
      ([] ++ [Server.Log (Server.LogCall "execute_sql" Scenario.drop_table)]) /\
  rule_checks (snd (@Server.handler AsciiFolding Scenario.up Scenario.gate
                      Scenario.db_disabled Scenario.execute_sql Scenario.drop_table []))
  = rule_checks [] /\
  upstream_calls (snd (@Server.handler AsciiFolding Scenario.up Scenario.gate
                         Scenario.db_disabled Scenario.execute_sql Scenario.drop_table []))
  = upstream_calls [] ++ [(0, "execute_sql", Scenario.drop_table)].
Proof.
  apply (@disabled_gate_forwards_unchanged AsciiFolding Scenario.up Scenario.gate
           Scenario.db_disabled Scenario.execute_sql Scenario.drop_table []).
  left. reflexivity.
Defined.

(** A forwarded call on an upstream that fails. *)
Lemma mirror_relays_and_never_raises_witness :
  fst (@Server.handler AsciiFolding Scenario.down Scenario.gate Scenario.db
         Scenario.execute_sql Scenario.select_one [])
  = Returns (Server.mkToolResult
               [Server.text_item ("Upstream error: " +:+ "fetch failed")] true).
Proof.
  apply (proj2 (proj2 (proj2
           (@mirror_relays_and_never_raises AsciiFolding Scenario.down Scenario.gate
              Scenario.db Scenario.execute_sql Scenario.select_one [])))
           (ErrorObject "fetch failed")).
  - reflexivity.
  - reflexivity.
Defined.

(* ===================================================================== *)
(** * Properties of the gate registry                                     *)
(* ===================================================================== *)

Section Registry.
Import Server.
Context (host : Host).

Lemma connection_attempts_app (t u : list event) :
  connection_attempts (t ++ u) = connection_attempts t ++ connection_attempts u.
Proof. apply flat_map_app. Qed.

(** The synchronous part of [connectUpstream]: it throws on a bad URL
    without touching anything, or makes a client and starts one
    connection. *)
Lemma connectUpstream_start_cases (name : string) (config : ServerConfig) (w : World) :
  (exists u, url config = Some u /\ url_parses host u = true /\
             connectUpstream_start host name config w
             = (Returns (objects w, u),
                mkWorld (sessions w) (gates w) (S (objects w))
                        (trace w ++ [UpstreamConnect (objects w) u])))
  \/ ((url config = None \/ exists u, url config = Some u /\ url_parses host u = false) /\
      connectUpstream_start host name config w = (Throws (ErrorObject "Invalid URL"), w)).
Proof.
  unfold connectUpstream_start.
  destruct (url config) as [u|]; [destruct (url_parses host u) eqn:Hu|].
  - left. exists u. repeat split; auto.
  - right. split; [right; eauto | reflexivity].
  - right. split; [now left | reflexivity].
Qed.

(** The rest of [connectUpstream] leaves the maps alone and starts no
    connection. *)
Lemma connectUpstream_finish_cases (name : string) (client : nat) (u : string) (w : World) :
  exists r new,
    connectUpstream_finish host name client u w
    = (r, mkWorld (sessions w) (gates w) (objects w) (trace w ++ new)) /\
    connection_attempts new = [] /\
    (forall gate, r = Returns gate -> upstream gate = client).
Proof.
  unfold connectUpstream_finish, bind, settle, note_w, modify, record, push, ret.
  destruct (client_connect host client u) as [[]|err]; simpl.
  - destruct (client_listTools host client) as [tools|err]; simpl.
    + eexists _, [_; _]. rewrite <- app_assoc. simpl.
      repeat split. intros gate [= <-]. reflexivity.
    + eexists _, [_]. repeat split. discriminate.
  - exists (Throws err), []. rewrite app_nil_r. destruct w. repeat split. discriminate.
Qed.

Lemma getGate_cached (name : string) (config : ServerConfig) (w : World) (gate : GateState) :
  gates w !! name = Some gate ->
  getGate host name config w = (Returns gate, w).
Proof. intros H. unfold getGate, bind, gets, ret. now rewrite H. Qed.

Lemma getGate_miss (name : string) (config : ServerConfig) (w : World) :
  gates w !! name = None ->
  getGate host name config w
  = (let* gate := connectUpstream host name config in cache_gate name gate) w.
Proof. intros H. unfold getGate, bind at 1, gets. now rewrite H. Qed.

(** A call of [getGate] that finds no gate, by how its connection goes. *)
Lemma getGate_miss_cases (name : string) (config : ServerConfig) (w : World) :
  gates w !! name = None ->
  (exists err, getGate host name config w = (Throws err, w) /\
               connectUpstream_start host name config w = (Throws err, w))
  \/ (exists u new,
        url config = Some u /\ url_parses host u = true /\
        connection_attempts new = [(objects w, u)] /\
        connectUpstream_start host name config w
        = (Returns (objects w, u),
           mkWorld (sessions w) (gates w) (S (objects w))
                   (trace w ++ [UpstreamConnect (objects w) u])) /\
        ((exists err,
            getGate host name config w
            = (Throws err,
               mkWorld (sessions w) (gates w) (S (objects w)) (trace w ++ new)) /\
            resume host (Awaiting name (objects w) u)
              (mkWorld (sessions w) (gates w) (S (objects w))
                       (trace w ++ [UpstreamConnect (objects w) u]))
            = (Settled (Throws err),
               mkWorld (sessions w) (gates w) (S (objects w)) (trace w ++ new)))
         \/ (exists gate,
               upstream gate = objects w /\
               getGate host name config w
               = (Returns gate,
                  mkWorld (sessions w) (<[name := gate]> (gates w)) (S (objects w))
                          (trace w ++ new)) /\
               resume host (Awaiting name (objects w) u)
                 (mkWorld (sessions w) (gates w) (S (objects w))
                          (trace w ++ [UpstreamConnect (objects w) u]))
               = (Settled (Returns gate),
                  mkWorld (sessions w) (<[name := gate]> (gates w)) (S (objects w))
                          (trace w ++ new))))).
Proof.
  intros Hmiss.
  destruct (connectUpstream_start_cases name config w)
    as [[u [Hu [Hok Hstart]]] | [_ Hstart]].
  - right.
    destruct (connectUpstream_finish_cases name (objects w) u
                (mkWorld (sessions w) (gates w) (S (objects w))
                         (trace w ++ [UpstreamConnect (objects w) u])))
      as [r [new [Hfinish [Hnew Hup]]]].
    simpl in Hfinish. rewrite <- app_assoc in Hfinish.
    exists u, ([UpstreamConnect (objects w) u] ++ new).
    split; [exact Hu|]. split; [exact Hok|].
    split; [rewrite connection_attempts_app, Hnew; reflexivity|].
    split; [exact Hstart|].
    assert (Hget : getGate host name config w
                   = (let* gate := connectUpstream_finish host name (objects w) u in
                      cache_gate name gate)
                       (mkWorld (sessions w) (gates w) (S (objects w))
                                (trace w ++ [UpstreamConnect (objects w) u]))).
    { rewrite (getGate_miss _ _ _ Hmiss). unfold connectUpstream, bind.
      rewrite Hstart. reflexivity. }
    rewrite Hget. unfold resume. unfold bind. rewrite Hfinish.
    destruct r as [gate|err].
    + right. exists gate. split; [now apply Hup|]. split; reflexivity.
    + left. exists err. split; reflexivity.
  - left. exists (ErrorObject "Invalid URL"). split; [|exact Hstart].
    rewrite (getGate_miss _ _ _ Hmiss). unfold connectUpstream, bind.
    rewrite Hstart. reflexivity.
Qed.

(** C5. When the registry already holds a gate for the name, [getGate]
    returns it and does nothing else: no connection is attempted. When
    [getGate] fails, the registry and the session table are as before and
    hold no entry for the name, so a later call for the name starts a new
    connection, with a new client, and caches the gate if that succeeds. *)
Theorem getGate_reuses_and_does_not_cache_failures
    (name : string) (config : ServerConfig) (w : World) :
  (forall gate, gates w !! name = Some gate ->
                getGate host name config w = (Returns gate, w))
  /\ (forall err w',
         getGate host name config w = (Throws err, w') ->
         gates w' = gates w /\ sessions w' = sessions w /\ gates w' !! name = None)
  /\ (forall err w' config' u,
         getGate host name config w = (Throws err, w') ->
         url config' = Some u -> url_parses host u = true ->
         connection_attempts (trace (snd (getGate host name config' w')))
         = connection_attempts (trace w') ++ [(objects w', u)]
         /\ (forall gate w'',
                getGate host name config' w' = (Returns gate, w'') ->
                upstream gate = objects w' /\ gates w'' !! name = Some gate)).
Proof.
  assert (Hfail : forall err w',
             getGate host name config w = (Throws err, w') ->
             gates w' = gates w /\ sessions w' = sessions w /\ gates w' !! name = None).
  { intros err w' Hget.
    destruct (gates w !! name) as [gate|] eqn:Hlook.
    - rewrite (getGate_cached _ _ _ _ Hlook) in Hget. discriminate.
    - destruct (getGate_miss_cases name config w Hlook)
        as [[e [He _]] | [u [new [_ [_ [_ [_ [[e [He _]] | [g [_ [Hg _]]]]]]]]]]].
      + rewrite He in Hget. injection Hget as _ <-. auto.
      + rewrite He in Hget. injection Hget as _ <-. auto.
      + rewrite Hg in Hget. discriminate. }
  split; [intros gate; apply getGate_cached|]. split; [exact Hfail|].
  intros err w' config' u Hget Hu Hok.
  destruct (Hfail err w' Hget) as [_ [_ Hnone]].
  destruct (getGate_miss_cases name config' w' Hnone)
    as [[e [_ Hstart]] | [u' [new [Hu' [_ [Hnew [_ Hcases]]]]]]].
  - exfalso.
    destruct (connectUpstream_start_cases name config' w')
      as [[u' [_ [_ Hs]]] | [[Hno | [u' [Hu' Hbad]]] _]];
      congruence.
  - assert (u' = u) as -> by congruence.
    destruct Hcases as [[e [He _]] | [g [Hup [Hg _]]]].
    + rewrite He. simpl snd. unfold trace at 1.
      rewrite connection_attempts_app, Hnew. split; [reflexivity|].
      intros gate w'' [=].
    + rewrite Hg. simpl snd. unfold trace at 1.
      rewrite connection_attempts_app, Hnew. split; [reflexivity|].
      intros gate w'' [= <- <-]. split; [exact Hup|].
      simpl. apply lookup_insert_eq.
Qed.

(** C6, as the code has it. Two first requests to one unconnected gate name
    that do not overlap, the first having got its gate before the second
    starts, make one connection attempt between them, and both get the
    same gate. *)
Theorem first_requests_in_turn_connect_once
    (name : string) (config config' : ServerConfig) (w w1 : World) (gate : GateState) :
  gates w !! name = None ->
  getGate host name config w = (Returns gate, w1) ->
  run host [0; 0; 1] [Called name config; Called name config'] w
  = ([Settled (Returns gate); Settled (Returns gate)], w1)
  /\ exists u, connection_attempts (trace w1)
               = connection_attempts (trace w) ++ [(upstream gate, u)].
Proof.
  intros Hmiss Hget.
  destruct (getGate_miss_cases name config w Hmiss)
    as [[e [He _]] | [u [new [_ [_ [Hnew [Hstart [[e [He _]] | [g [Hup [Hg Hres]]]]]]]]]]];
    try (rewrite He in Hget; discriminate).
  rewrite Hg in Hget. injection Hget as -> <-.
  split.
  - unfold run. simpl lookup. cbv iota.
    unfold resume at 1. rewrite Hmiss, Hstart. simpl fst. simpl snd.
    simpl insert. simpl lookup. cbv iota. rewrite Hres.
    simpl insert. simpl lookup. cbv iota.
    unfold resume. simpl gates. rewrite lookup_insert_eq. reflexivity.
  - exists u. simpl trace. rewrite connection_attempts_app, Hnew, Hup. reflexivity.
Qed.

(** Two calls for one unconnected name that both run up to the [await]
    before either is resumed have each started a connection, on clients of
    their own. *)
Lemma overlapping_first_requests_each_connect
    (name : string) (config config' : ServerConfig) (u u' : string) (w : World) :
  gates w !! name = None ->
  url config = Some u -> url_parses host u = true ->
  url config' = Some u' -> url_parses host u' = true ->
  exists w',
    run host [0; 1] [Called name config; Called name config'] w
    = ([Awaiting name (objects w) u; Awaiting name (S (objects w)) u'], w')
    /\ connection_attempts (trace w')
       = connection_attempts (trace w) ++ [(objects w, u); (S (objects w), u')].
Proof.
  intros Hmiss Hu Hok Hu' Hok'.
  unfold run. simpl lookup. cbv iota.
  unfold resume at 1. rewrite Hmiss.
  unfold connectUpstream_start at 1. rewrite Hu, Hok.
  unfold bind, fresh, note_w, modify, record, push, ret. cbv beta iota.
  simpl fst. simpl snd. simpl insert. simpl lookup. cbv iota.
  unfold resume. cbn [gates]. rewrite Hmiss.
  unfold connectUpstream_start. rewrite Hu', Hok'.
  unfold bind, fresh, note_w, modify, record, push, ret. cbv beta iota.
  simpl fst. simpl snd. simpl insert.
  eexists. split; [reflexivity|].
  cbn [trace objects]. rewrite <- app_assoc, connection_attempts_app. reflexivity.
Qed.

End Registry.

(** After a refused connection, the next call connects again. *)
Lemma getGate_reuses_and_does_not_cache_failures_witness :
  connection_attempts
    (Server.trace
       (snd (Server.getGate Scenario.flaky "db" Scenario.db
               (snd (Server.getGate Scenario.flaky "db" Scenario.db Scenario.start)))))
  = connection_attempts
      (Server.trace (snd (Server.getGate Scenario.flaky "db" Scenario.db Scenario.start)))
    ++ [(Server.objects
           (snd (Server.getGate Scenario.flaky "db" Scenario.db Scenario.start)),
         "http://up/db")].
Proof.
  apply (proj1 (proj2 (proj2 (getGate_reuses_and_does_not_cache_failures
                                Scenario.flaky "db" Scenario.db Scenario.start))
                  (ErrorObject "fetch failed")
                  (snd (Server.getGate Scenario.flaky "db" Scenario.db Scenario.start))
                  Scenario.db "http://up/db"
                  ltac:(vm_compute; reflexivity) eq_refl eq_refl)).
Defined.

(** The retry at work: the first call fails and caches nothing, the second
    connects a new client and caches its gate. *)
Example retry_after_failure :
  fst (Server.getGate Scenario.flaky "db" Scenario.db Scenario.start)
  = Throws (ErrorObject "fetch failed")
  /\ fst (Server.getGate Scenario.flaky "db" Scenario.db
            (snd (Server.getGate Scenario.flaky "db" Scenario.db Scenario.start)))
     = Returns (Server.mkGateState 1 [Scenario.execute_sql]).
Proof. split; vm_compute; reflexivity. Qed.

(** Two calls for [db], the second started after the first was done. *)
Lemma first_requests_in_turn_connect_once_witness :
  Server.run Scenario.up [0; 0; 1]
    [Server.Called "db" Scenario.db; Server.Called "db" Scenario.db] Scenario.start
  = ([Server.Settled (Returns Scenario.gate); Server.Settled (Returns Scenario.gate)],
     snd (Server.getGate Scenario.up "db" Scenario.db Scenario.start))
  /\ exists u,
       connection_attempts
         (Server.trace (snd (Server.getGate Scenario.up "db" Scenario.db Scenario.start)))
       = connection_attempts (Server.trace Scenario.start)
         ++ [(Server.upstream Scenario.gate, u)].
Proof.
  apply (first_requests_in_turn_connect_once Scenario.up "db" Scenario.db Scenario.db
           Scenario.start).
  - reflexivity.
  - vm_compute. reflexivity.
Defined.

(** C6, as the specification states it, fails: two first requests to the
    unconnected gate [db] that overlap at the [await] of [getGate] (each
    runs up to it before either is resumed) make two connection attempts,
    and the two callers get different gates. *)
Lemma overlapping_first_requests_connect_twice :
  connection_attempts
    (Server.trace
       (snd (Server.run Scenario.up [0; 1; 0; 1]
               [Server.Called "db" Scenario.db; Server.Called "db" Scenario.db]
               Scenario.start)))
  = [(0, "http://up/db"); (1, "http://up/db")]
  /\ fst (Server.run Scenario.up [0; 1; 0; 1]
            [Server.Called "db" Scenario.db; Server.Called "db" Scenario.db]
            Scenario.start)
     = [Server.Settled (Returns (Server.mkGateState 0 [Scenario.execute_sql]));
        Server.Settled (Returns (Server.mkGateState 1 [Scenario.execute_sql]))].
Proof. split; vm_compute; reflexivity. Qed.

(* ===================================================================== *)
(** * Properties of the session router                                    *)
(* ===================================================================== *)

Section Router.
Import Server.
Context {fold : CaseFolding} (host : Host).

Lemma string_truthy_true (s : string) : s <> EmptyString -> string_truthy s = true.
Proof. destruct s; [congruence | reflexivity]. Qed.



(** C7, at a name the code takes for a gate. The configuration has the one
    gate [db]; the path names [constructor], which is no key of [servers]
    but a property every object inherits. The router does not answer 404
    with the configured names: it goes on to connect, fails on the
    missing URL and answers 502. Neither map is changed. *)
Theorem inherited_name_is_taken_for_a_gate :
  own_property (servers Scenario.config) "constructor" = None
  /\ handleRequest host (Scenario.post "/constructor" None) Scenario.config Scenario.start
     = (Returns (JsonResponse 502
                   (JObject [("error",
                              JString "Failed to connect to upstream: Invalid URL")])),
        mkWorld ∅ ∅ 0
                [Log (LogRequest "POST" "constructor");
                 Log (LogUpstreamFailed "constructor" "Invalid URL")]).
Proof. split; reflexivity. Qed.

(** C8. A request to a configured gate that carries a session identifier
    (a header that is not empty) which the session table does not hold is
    answered 404 with the protocol's "Session not found" envelope; the
    handler returns, and neither the session table nor the registry
    changes. *)
Theorem unknown_session_is_told_to_reinitialize
    (req : Request) (config : GuardConfig) (w : World)
    (gateConfig : ServerConfig) (sid : string) :
  path_gate_name req <> EmptyString ->
  own_property (servers config) (path_gate_name req) = Some gateConfig ->
  mcp_session_id req = Some sid ->
  sid <> EmptyString ->
  sessions w !! sid = None ->
  handleRequest host req config w
  = (Returns (JsonResponse 404
                (JObject [("jsonrpc", JString "2.0");
                          ("error", JObject [("code", JNumber (-32001));
                                             ("message", JString "Session not found")]);
                          ("id", JNull)])),
     record (Log (LogRequest (method req) (path_gate_name req))) w)
  /\ sessions (snd (handleRequest host req config w)) = sessions w
  /\ gates (snd (handleRequest host req config w)) = gates w.
Proof.
  intros Hname Hown Hhead Hsid Hnone.
  assert (Hrun : handleRequest host req config w
                 = (Returns (JsonResponse 404
                               (JObject [("jsonrpc", JString "2.0");
                                         ("error",
                                          JObject [("code", JNumber (-32001));
                                                   ("message", JString "Session not found")]);
                                         ("id", JNull)])),
                    record (Log (LogRequest (method req) (path_gate_name req))) w)).
  { unfold handleRequest. cbv zeta. unfold bind at 1, note_w, modify.
    rewrite (string_truthy_true _ Hname). simpl negb. cbv iota.
    unfold get_server. rewrite Hown.
    unfold session_id. rewrite Hhead, (string_truthy_true _ Hsid).
    unfold bind, gets. cbn [negb]. cbv beta iota.
    unfold record at 1. cbn [sessions]. rewrite Hnone. reflexivity. }
  rewrite Hrun. repeat split.
Qed.

(** Every name an object inherits, unless it is configured as well, passes
    the test of line 119: a request that starts a session under it is
    answered 502, whatever the upstream. *)
Lemma inherited_names_are_taken_for_gates
    (req : Request) (config : GuardConfig) (w : World) :
  In (path_gate_name req) object_prototype_names ->
  own_property (servers config) (path_gate_name req) = None ->
  mcp_session_id req = None ->
  method req = "POST" ->
  gates w !! path_gate_name req = None ->
  handleRequest host req config w
  = (Returns (JsonResponse 502
                (JObject [("error",
                           JString "Failed to connect to upstream: Invalid URL")])),
     record (Log (LogUpstreamFailed (path_gate_name req) "Invalid URL"))
       (record (Log (LogRequest (method req) (path_gate_name req))) w)).
Proof.
  intros Hin Hown Hhead Hpost Hmiss.
  assert (Hname : string_truthy (path_gate_name req) = true).
  { revert Hin. generalize (path_gate_name req). intros n Hin.
    repeat (destruct Hin as [<-|Hin]; [reflexivity|]). destruct Hin. }
  assert (Hget : get_server (servers config) (path_gate_name req) = Some prototype_member).
  { unfold get_server. rewrite Hown.
    replace (existsb (String.eqb (path_gate_name req)) object_prototype_names) with true;
      [reflexivity|].
    symmetry. apply existsb_exists. exists (path_gate_name req).
    split; [exact Hin | apply String.eqb_refl]. }
  unfold handleRequest. cbv zeta. unfold bind at 1, note_w, modify.
  rewrite Hname. cbn [negb]. cbv beta iota. rewrite Hget.
  unfold session_id. rewrite Hhead. unfold bind at 1, gets. cbv beta iota.
  rewrite Hpost. change (negb (String.eqb "POST" "POST")) with false. cbv iota.
  unfold new_session, bind at 1, try_catch, bind at 1.
  rewrite getGate_miss by exact Hmiss.
  unfold connectUpstream, bind at 1 2, connectUpstream_start. cbn [url prototype_member].
  unfold throw. cbv beta iota. unfold bind, note_w, modify, ret. reflexivity.
Qed.

End Router.

(** A request to [db] under a session identifier nobody issued. *)
Lemma unknown_session_is_told_to_reinitialize_witness :
  @Server.handleRequest AsciiFolding Scenario.up (Scenario.post "/db" (Some "abc"))
    Scenario.config Scenario.start
  = (Returns (Server.JsonResponse 404
                (JObject [("jsonrpc", JString "2.0");
                          ("error", JObject [("code", JNumber (-32001));
                                             ("message", JString "Session not found")]);
                          ("id", JNull)])),
     Server.record
       (Server.Log (Server.LogRequest
                      (Server.method (Scenario.post "/db" (Some "abc")))
                      (Server.path_gate_name (Scenario.post "/db" (Some "abc")))))
       Scenario.start)
  /\ Server.sessions
       (snd (@Server.handleRequest AsciiFolding Scenario.up
               (Scenario.post "/db" (Some "abc")) Scenario.config Scenario.start))
     = Server.sessions Scenario.start
  /\ Server.gates
       (snd (@Server.handleRequest AsciiFolding Scenario.up
               (Scenario.post "/db" (Some "abc")) Scenario.config Scenario.start))
     = Server.gates Scenario.start.
Proof.
  apply (@unknown_session_is_told_to_reinitialize AsciiFolding Scenario.up
           (Scenario.post "/db" (Some "abc")) Scenario.config Scenario.start
           Scenario.db "abc").
  - discriminate.
  - reflexivity.
  - reflexivity.
  - discriminate.
  - reflexivity.
Defined.

(** A session header that is empty is read as no header: the request is
    taken for the start of a session. *)
Example empty_session_header :
  fst (@Server.handleRequest AsciiFolding Scenario.up
         (Server.mkRequest "GET" "/db" (Some EmptyString) (Returns None))
         Scenario.config Scenario.start)
  = Returns (Server.JsonResponse 400
               (JObject [("error", JString "New sessions must start with POST")])).
Proof. reflexivity. Qed.

(** An unconfigured name that no object inherits is answered 404 with the
    configured names. *)
Example unknown_gate_nope :
  @Server.handleRequest AsciiFolding Scenario.up (Scenario.post "/nope" None)
    Scenario.config Scenario.start
  = (Returns (Server.JsonResponse 404
                (JObject [("error", JString ("Unknown gate: " +:+ dquote +:+ "nope" +:+ dquote));
                          ("available", JArray [JString "db"])])),
     Server.mkWorld ∅ ∅ 0 [Server.Log (Server.LogRequest "POST" "nope")]).
Proof. reflexivity. Qed.

(* ===================================================================== *)
(** * Properties of the toggle controller                                 *)
(* ===================================================================== *)

Section Controller.
Import Toggle.
Context (host : Host).

Lemma unlinkSync_present (text : string) (t : list event) :
  unlinkSync (mkWorld (Some text) t) = (Returns tt, mkWorld None (t ++ [Unlink])).
Proof. reflexivity. Qed.

(** C9. When the lock record exists and the process it names is not alive,
    or is alive while the status endpoint does not answer successfully in
    time, the status check removes the record and reports "off"
    ([undefined]); what it does meanwhile includes no termination signal,
    only the probe that tests whether the process exists. *)
Theorem stale_lock_is_removed_without_signal
    (port : Z) (text : string) (pid : Z) (t : list event) :
  parseInt (trim text) = Some pid ->
  process_alive host pid = false
  \/ (process_alive host pid = true /\ fetch_status host port <> Returns true) ->
  exists new,
    getRunningPid host port (mkWorld (Some text) t)
    = (Returns None, mkWorld None (t ++ new))
    /\ existsb is_termination new = false
    /\ In Unlink new
    /\ (forall p sig, In (Kill p sig) new -> p = pid /\ sig = Probe).
Proof.
  intros Hpid Hstale.
  unfold getRunningPid, bind at 1, gets. cbn [pid_file]. rewrite Hpid.
  unfold isProcessRunning, process_kill, try_catch, bind, note, modify, ret, throw.
  cbn [pid_file trace].
  destruct Hstale as [Hdead | [Halive Hfetch]].
  - rewrite Hdead. cbn [negb]. cbv beta iota.
    rewrite unlinkSync_present.
    exists [Kill pid Probe; Unlink]. rewrite <- app_assoc.
    split; [reflexivity|]. split; [reflexivity|]. split; [simpl; auto|].
    intros p sig [Hk|[Hk|[]]]; [|discriminate].
    injection Hk as <- <-. auto.
  - rewrite Halive. cbn [negb]. cbv beta iota. unfold settle.
    exists [Kill pid Probe; Fetch port; Unlink].
    split.
    + destruct (fetch_status host port) as [[]|err]; [congruence| |];
        cbv beta iota; cbn [pid_file trace];
        rewrite unlinkSync_present, <- !app_assoc; reflexivity.
    + split; [reflexivity|]. split; [simpl; auto|].
      intros p sig [Hk|[Hk|[Hk|[]]]]; [|discriminate|discriminate].
      injection Hk as <- <-. auto.
Qed.

End Controller.

(** A lock record naming a process that is gone. *)
Lemma stale_lock_is_removed_without_signal_witness :
  exists new,
    Toggle.getRunningPid Machine.dead 6427 (Toggle.mkWorld (Some "4242") [])
    = (Returns None, Toggle.mkWorld None ([] ++ new))
    /\ existsb Toggle.is_termination new = false
    /\ In Toggle.Unlink new
    /\ (forall p sig, In (Toggle.Kill p sig) new -> p = 4242%Z /\ sig = Toggle.Probe).
Proof.
  apply (stale_lock_is_removed_without_signal Machine.dead 6427 "4242" 4242 []).
  - reflexivity.
  - left. reflexivity.
Defined.

(** The stale-lock scenario, for a dead process and for one that hangs; and,
    for contrast, the toggle of a proxy that runs, which does send the
    termination signal. *)
Example stale_lock_dead :
  Toggle.getRunningPid Machine.dead 6427 Machine.locked
  = (Returns None, Toggle.mkWorld None [Toggle.Kill 4242 Toggle.Probe; Toggle.Unlink]).
Proof. reflexivity. Qed.

Example stale_lock_hung :
  Toggle.getRunningPid Machine.hung 6427 Machine.locked
  = (Returns None,
     Toggle.mkWorld None [Toggle.Kill 4242 Toggle.Probe; Toggle.Fetch 6427; Toggle.Unlink]).
Proof. reflexivity. Qed.

Example toggle_off_terminates :
  Toggle.toggle Machine.live "guard.json" 6427 Machine.locked
  = (Returns tt,
     Toggle.mkWorld None
       [Toggle.Kill 4242 Toggle.Probe; Toggle.Fetch 6427;
        Toggle.Kill 4242 Toggle.SIGTERM; Toggle.Unlink;
        Toggle.ConsoleLog "MCP Guard off"]).
Proof. reflexivity. Qed.

(* ===================================================================== *)
(** * Further properties of the block rule engine                         *)
(* ===================================================================== *)

Section EngineComposition.
Context {fold : CaseFolding}.

Lemma append_nil_r (s : string) : s +:+ EmptyString = s.
Proof. induction s as [|c s IH]; [reflexivity|]. now rewrite append_String, IH. Qed.

Lemma includes_refl (s : string) : includes s s = true.
Proof.
  apply includes_spec. exists EmptyString, EmptyString.
  now rewrite append_Empty, append_nil_r.
Qed.


Lemma scan_app (ps qs values : list string) :
  Rules.scan (ps ++ qs) values
  = if Rules.blocked (Rules.scan ps values)
    then Rules.scan ps values
    else Rules.scan qs values.
Proof.
  induction ps as [|p ps IH]; simpl; [reflexivity|].
  destruct (Rules.some_value_matches p values); [reflexivity | exact IH].
Qed.

Lemma extractStrings_rekey (f : string -> string) (v : json) :
  Rules.extractStrings (rekey f v) = Rules.extractStrings v.
Proof.
  induction v using json_ind; try reflexivity.
  - simpl rekey. rewrite !extractStrings_array.
    induction H as [|x r Hx _ IH]; simpl; [reflexivity|]. now rewrite Hx, IH.
  - simpl rekey. rewrite !extractStrings_object.
    induction H as [|kv r Hx _ IH]; simpl; [reflexivity|]. now rewrite Hx, IH.
Qed.

Lemma some_value_matches_fold_eq (p q : string) (values : list string) :
  toLowerCase p = toLowerCase q ->
  Rules.some_value_matches p values = Rules.some_value_matches q values.
Proof.
  intros Hpq. induction values as [|v r IH]; simpl; [reflexivity|].
  unfold Rules.matches. now rewrite Hpq, IH.
Qed.

(** X1. The verdict for a pattern list that is two lists one after the other
    is the verdict of the first when that blocks, and the verdict of the
    second otherwise: patterns added behind a list never change a blocked
    verdict or the pattern it reports, and never unblock a call. *)
Theorem shouldBlock_append (args : json) (ps qs : list string) :
  Rules.shouldBlock args (ps ++ qs)
  = if Rules.blocked (Rules.shouldBlock args ps)
    then Rules.shouldBlock args ps
    else Rules.shouldBlock args qs.
Proof. unfold Rules.shouldBlock. cbv zeta. apply scan_app. Qed.

(** X2. Property names are never matched: renaming the keys of every mapping
    in the arguments, at any depth and in any way, changes no verdict. *)
Theorem shouldBlock_ignores_property_names
    (f : string -> string) (args : json) (patterns : list string) :
  Rules.shouldBlock (rekey f args) patterns = Rules.shouldBlock args patterns.
Proof. unfold Rules.shouldBlock. now rewrite extractStrings_rekey. Qed.

(** X3. A string leaf that equals a configured pattern blocks the call,
    whatever the case folding does. *)
Theorem leaf_equal_to_a_pattern_blocks (args : json) (patterns : list string) (s : string) :
  leaf_of args s -> In s patterns ->
  Rules.blocked (Rules.shouldBlock args patterns) = true.
Proof.
  intros Hleaf Hin.
  destruct (shouldBlock_shape args patterns) as [[p [_ Hp]]|Hno]; [now rewrite Hp|].
  exfalso. apply (proj1 (shouldBlock_no_hit args patterns) Hno s Hin).
  exists s. split; [exact Hleaf|]. apply matches_spec. apply includes_refl.
Qed.


(** X5. Only the folded form of a pattern counts: two pattern lists that are
    equal after folding every pattern block the same calls, and report
    patterns at the same place of the list. *)
Theorem patterns_equal_after_folding_block_alike
    (args : json) (ps qs : list string) :
  map toLowerCase ps = map toLowerCase qs ->
  Rules.blocked (Rules.shouldBlock args ps) = Rules.blocked (Rules.shouldBlock args qs)
  /\ option_map toLowerCase (Rules.pattern (Rules.shouldBlock args ps))
     = option_map toLowerCase (Rules.pattern (Rules.shouldBlock args qs)).
Proof.
  unfold Rules.shouldBlock. cbv zeta. generalize (Rules.extractStrings args) as values.
  intros values. revert qs.
  induction ps as [|p ps IH]; intros [|q qs] Heq; try discriminate; simpl.
  - split; reflexivity.
  - injection Heq as Hpq Hrest.
    rewrite (some_value_matches_fold_eq p q values Hpq).
    destruct (Rules.some_value_matches q values); simpl.
    + split; [reflexivity | now rewrite Hpq].
    + now apply IH.
Qed.

End EngineComposition.


(** A leaf equal to the second pattern. *)
Lemma leaf_equal_to_a_pattern_blocks_witness :
  Rules.blocked (@Rules.shouldBlock AsciiFolding
                   (JObject [("q", JArray [JString "DELETE"])]) ["DROP"; "DELETE"])
  = true.
Proof.
  apply (@leaf_equal_to_a_pattern_blocks AsciiFolding _ _ "DELETE").
  - apply (leaf_value _ "q" (JArray [JString "DELETE"])); [now left|].
    apply (leaf_element _ (JString "DELETE")); [now left | constructor].
  - right. now left.
Defined.


(** The patterns in capitals and in small letters. *)
Lemma patterns_equal_after_folding_block_alike_witness :
  Rules.blocked (@Rules.shouldBlock AsciiFolding Scenario.drop_table ["DROP"; "DELETE"])
  = Rules.blocked (@Rules.shouldBlock AsciiFolding Scenario.drop_table ["drop"; "Delete"])
  /\ option_map ascii_toLowerCase
       (Rules.pattern (@Rules.shouldBlock AsciiFolding Scenario.drop_table ["DROP"; "DELETE"]))
     = option_map ascii_toLowerCase
         (Rules.pattern (@Rules.shouldBlock AsciiFolding Scenario.drop_table ["drop"; "Delete"])).
Proof.
  apply (@patterns_equal_after_folding_block_alike AsciiFolding).
  reflexivity.
Defined.

(* ===================================================================== *)
(** * Further properties of the mirror and of the registry                *)
(* ===================================================================== *)

Section MirrorCalls.
Import Server.
Context {fold : CaseFolding} (host : Host).

(** X6. A mirrored tool's handler only adds to the trace, and does one of two
    things: it answers a blocked call itself, with an error result and no
    upstream call, on a gate that is enabled and has a pattern list that
    blocks the arguments; or it makes exactly one upstream call, on the
    gate's own client, under the tool's own name, with the arguments as
    they came. *)
Theorem mirror_calls_upstream_at_most_once
    (gate : GateState) (gateConfig : ServerConfig) (tool : Tool)
    (args : json) (t : list event) :
  exists r new,
    handler host gate gateConfig tool args t = (Returns r, t ++ new)
    /\ ((upstream_calls new = []
         /\ isError r = true
         /\ enabled_not_false gateConfig = true
         /\ exists patterns,
              block gateConfig = Some patterns
              /\ Rules.blocked (Rules.shouldBlock args patterns) = true)
        \/ upstream_calls new = [(upstream gate, name tool, args)]).
Proof.
  rewrite handler_cases.
  destruct (enabled_not_false gateConfig) eqn:Hen;
    [destruct (block_length_truthy gateConfig) eqn:Hlen|]; simpl andb; cbv zeta iota.
  - destruct (Rules.blocked (Rules.shouldBlock args (default [] (block gateConfig))))
      eqn:Hblocked.
    + eexists _, [_; _; _]. split; [reflexivity|]. left.
      repeat split. unfold block_length_truthy in Hlen.
      destruct (block gateConfig) as [[|p ps]|]; try discriminate.
      exists (p :: ps). split; [reflexivity | exact Hblocked].
    + destruct (forward_returns host gate tool args
                  (t ++ [Log (LogCall (name tool) args);
                         RuleCheck args (default [] (block gateConfig))]))
        as [r [new [-> [Hcalls _]]]].
      exists r, ([Log (LogCall (name tool) args);
                  RuleCheck args (default [] (block gateConfig))] ++ new).
      rewrite <- app_assoc. split; [reflexivity|]. right.
      rewrite upstream_calls_app. exact Hcalls.
  - destruct (forward_returns host gate tool args (t ++ [Log (LogCall (name tool) args)]))
      as [r [new [-> [Hcalls _]]]].
    exists r, ([Log (LogCall (name tool) args)] ++ new).
    rewrite <- app_assoc. split; [reflexivity|]. right.
    rewrite upstream_calls_app. exact Hcalls.
  - destruct (forward_returns host gate tool args (t ++ [Log (LogCall (name tool) args)]))
      as [r [new [-> [Hcalls _]]]].
    exists r, ([Log (LogCall (name tool) args)] ++ new).
    rewrite <- app_assoc. split; [reflexivity|]. right.
    rewrite upstream_calls_app. exact Hcalls.
Qed.

End MirrorCalls.

Section RegistryFrame.
Import Server.
Context (host : Host).

(** What a call of [getGate] does to the world: it adds to the trace, leaves
    the sessions alone, and either leaves the registry alone, or enters the
    gate it returns under a name that had none, with a client made for it. *)
Lemma getGate_effect (name : string) (config : ServerConfig) (w : World) :
  exists r w' new,
    getGate host name config w = (r, w')
    /\ trace w' = trace w ++ new
    /\ sessions w' = sessions w
    /\ objects w <= objects w'
    /\ ((gates w' = gates w
         /\ (forall g, r = Returns g -> gates w !! name = Some g)
         /\ (gates w !! name = None -> exists err, r = Throws err))
        \/ (exists g, r = Returns g
                      /\ gates w !! name = None
                      /\ gates w' = <[name := g]> (gates w)
                      /\ upstream g = objects w
                      /\ objects w < objects w')).
Proof.
  destruct (gates w !! name) as [g|] eqn:Hlook.
  - exists (Returns g), w, []. rewrite (getGate_cached host _ _ _ _ Hlook), app_nil_r.
    repeat split; auto. left. repeat split; [congruence | discriminate].
  - destruct (getGate_miss_cases host name config w Hlook)
      as [[e [He _]] | [u [new [_ [_ [_ [_ [[e [He _]] | [g [Hup [Hg _]]]]]]]]]]].
    + exists (Throws e), w, []. rewrite He, app_nil_r.
      repeat split; auto. left. repeat split; [discriminate | eauto].
    + eexists (Throws e), _, new. rewrite He.
      split; [reflexivity|]. simpl. repeat split; auto. left.
      repeat split; [discriminate | eauto].
    + eexists (Returns g), _, new. rewrite Hg.
      split; [reflexivity|]. simpl. repeat split; auto. right.
      exists g. repeat split; auto.
Qed.


End RegistryFrame.

(* ===================================================================== *)
(** * Further properties of the session router                            *)
(* ===================================================================== *)

Section RouterCases.
Import Server.
Context {fold : CaseFolding} (host : Host).

(** [transport.handleRequest], spelled out. *)
Lemma run_transport_eq (session : Session) (req : Request) (parsed : option json)
    (w : World) :
  run_transport host session req parsed w
  = (match reply (transport_handleRequest host (transport session) req parsed) with
     | Returns written => Returns (TransportResponse written)
     | Throws err => Throws err
     end,
     mkWorld
       (match initialized (transport_handleRequest host (transport session) req parsed) with
        | Some sid => <[sid := session]> (sessions w)
        | None => sessions w
        end)
       (gates w) (objects w) (trace w ++ [TransportHandle (transport session)])).
Proof.
  unfold run_transport, bind, note_w, modify, record, push, settle, ret, set_session.
  cbv zeta.
  destruct (transport_handleRequest host (transport session) req parsed) as [ini rep].
  simpl. destruct ini, rep; reflexivity.
Qed.

(** Lines 155-178, by how [getGate], [server.connect] and [readBody] go. *)
Lemma new_session_cases (req : Request) (gateName : string) (gateConfig : ServerConfig)
    (w : World) :
  new_session host req gateName gateConfig w
  = match getGate host gateName gateConfig w with
    | (Throws err, w1) =>
        (Returns (upstream_failed (message_of err)),
         record (Log (LogUpstreamFailed gateName (message_of err))) w1)
    | (Returns gate, w1) =>
        match server_connect host (objects w1), body req with
        | Returns _, Returns parsed =>
            run_transport host
              (mkSession gateName (createGatedServer host gate gateConfig) (objects w1))
              req parsed
              (mkWorld (sessions w1) (gates w1) (S (objects w1))
                       (trace w1 ++ [ServerConnect (objects w1)]))
        | Throws err, _ | Returns _, Throws err =>
            (Throws err,
             mkWorld (sessions w1) (gates w1) (S (objects w1))
                     (trace w1 ++ [ServerConnect (objects w1)]))
        end
    end.
Proof.
  unfold new_session, bind at 1, try_catch, bind at 1.
  destruct (getGate host gateName gateConfig w) as [[gate|err] w1].
  - unfold ret at 1. cbv beta iota.
    unfold bind, fresh, note_w, modify, record, push, settle. cbv beta iota.
    destruct (server_connect host (objects w1)) as [[]|e]; [|reflexivity].
    destruct (body req) as [parsed|e]; reflexivity.
  - unfold bind, note_w, modify, ret. reflexivity.
Qed.

(** [handleRequest] for a path that names something [config.servers] has. *)
Lemma handleRequest_routed (req : Request) (config : GuardConfig) (w : World)
    (gateConfig : ServerConfig) :
  path_gate_name req <> EmptyString ->
  get_server (servers config) (path_gate_name req) = Some gateConfig ->
  handleRequest host req config w
  = match session_id req with
    | Some sid =>
        match sessions w !! sid with
        | Some session =>
            if String.eqb (method req) "DELETE" then
              match run_transport host session req None
                      (record (Log (LogRequest (method req) (path_gate_name req))) w) with
              | (Returns response, w1) => (Returns response, delete_session sid w1)
              | (Throws err, w1) => (Throws err, w1)
              end
            else if String.eqb (method req) "POST" then
              match body req with
              | Returns parsed =>
                  run_transport host session req parsed
                    (record (Log (LogRequest (method req) (path_gate_name req))) w)
              | Throws err =>
                  (Throws err, record (Log (LogRequest (method req) (path_gate_name req))) w)
              end
            else
              run_transport host session req None
                (record (Log (LogRequest (method req) (path_gate_name req))) w)
        | None =>
            (Returns session_not_found,
             record (Log (LogRequest (method req) (path_gate_name req))) w)
        end
    | None =>
        if String.eqb (method req) "POST" then
          new_session host req (path_gate_name req) gateConfig
            (record (Log (LogRequest (method req) (path_gate_name req))) w)
        else
          (Returns must_start_with_post,
           record (Log (LogRequest (method req) (path_gate_name req))) w)
    end.
Proof.
  intros Hname Hget.
  unfold handleRequest. cbv zeta. unfold bind at 1, note_w, modify.
  rewrite (string_truthy_true _ Hname). cbn [negb]. cbv beta iota. rewrite Hget.
  unfold bind at 1, gets. cbv beta iota.
  destruct (session_id req) as [sid|].
  - unfold record at 1. cbn [sessions].
    destruct (sessions w !! sid) as [session|]; cbn [option_map]; cbv beta iota.
    + destruct (String.eqb (method req) "DELETE").
      * unfold bind, modify, ret.
        destruct (run_transport host session req None _) as [[response|err] w1];
          reflexivity.
      * destruct (String.eqb (method req) "POST").
        -- unfold bind at 1, settle. destruct (body req); reflexivity.
        -- unfold bind at 1, ret at 1. reflexivity.
    + reflexivity.
  - destruct (String.eqb (method req) "POST"); reflexivity.
Qed.

End RouterCases.

Section RouterBranches.
Import Server.
Context {fold : CaseFolding} (host : Host).

Lemma strip_trailing_slash_empty (s : string) :
  strip_trailing_slash s = EmptyString <-> s = EmptyString \/ s = "/".
Proof.
  destruct s as [|c [|d r]]; simpl.
  - split; auto.
  - destruct (Ascii.eqb_spec c "/") as [->|Hc].
    + split; auto.
    + split; [discriminate|]. intros [H|H]; [discriminate | congruence].
  - split; [discriminate|]. intros [H|H]; discriminate.
Qed.

Lemma strip_trailing_slash_app (s : string) : strip_trailing_slash (s +:+ "/") = s.
Proof.
  induction s as [|c s IH]; [reflexivity|].
  rewrite append_String. simpl. rewrite IH.
  destruct s; reflexivity.
Qed.

Lemma strip_trailing_slash_other (s : string) (c : ascii) :
  c <> "/"%char ->
  strip_trailing_slash (s +:+ String c EmptyString) = s +:+ String c EmptyString.
Proof.
  intros Hc. induction s as [|d s IH].
  - simpl. destruct (Ascii.eqb_spec c "/"); [contradiction | reflexivity].
  - rewrite append_String. simpl. rewrite IH.
    destruct s; reflexivity.
Qed.

Lemma handleRequest_root (req : Request) (config : GuardConfig) (w : World) :
  path_gate_name req = EmptyString ->
  handleRequest host req config w
  = (Returns (JsonResponse 200
                (JObject [("status", JString "ok");
                          ("gates", JArray (map JString (keys (servers config))))])),
     record (Log (LogRequest (method req) EmptyString)) w).
Proof.
  intros Hname. unfold handleRequest. cbv zeta. rewrite Hname. reflexivity.
Qed.


Lemma session_id_some (req : Request) (sid : string) :
  mcp_session_id req = Some sid -> sid <> EmptyString -> session_id req = Some sid.
Proof.
  intros Hhead Hsid. unfold session_id. now rewrite Hhead, (string_truthy_true _ Hsid).
Qed.

Lemma session_id_none (req : Request) :
  mcp_session_id req = None \/ mcp_session_id req = Some EmptyString ->
  session_id req = None.
Proof. unfold session_id. intros [-> | ->]; reflexivity. Qed.

Lemma eqb_false (a b : string) : a <> b -> String.eqb a b = false.
Proof. intros H. now apply String.eqb_neq. Qed.

(** X8. A path with no gate name in it, which is the root path with at most
    one more slash, is answered 200 with the configured gate names, whatever
    the method and the session header; nothing but the log is touched. *)
Theorem root_path_reports_status (req : Request) (config : GuardConfig) (w : World) :
  (path_gate_name req = EmptyString
   <-> pathname req = EmptyString \/ pathname req = "/" \/ pathname req = "//")
  /\ (path_gate_name req = EmptyString ->
      handleRequest host req config w
      = (Returns (JsonResponse 200
                    (JObject [("status", JString "ok");
                              ("gates", JArray (map JString (keys (servers config))))])),
         record (Log (LogRequest (method req) EmptyString)) w)).
Proof.
  split; [|apply handleRequest_root].
  unfold path_gate_name. rewrite strip_trailing_slash_empty.
  destruct (pathname req) as [|c r]; simpl.
  - split; auto.
  - destruct (Ascii.eqb_spec c "/") as [->|Hc].
    + split.
      * intros [-> | ->]; auto.
      * intros [H|[H|H]]; [discriminate | injection H as ->; auto
                           | injection H as ->; auto].
    + split.
      * intros [H|H]; [discriminate | congruence].
      * intros [H|[H|H]]; congruence.
Qed.

(** X9. The gate name of a path is what stands between its first slash and
    one closing slash: one slash is taken off at each end, no more, and a
    path that does not end in a slash keeps its end. *)
Theorem path_names_what_is_between_the_slashes
    (m : string) (sid : option string) (b : outcome (option json)) (n : string) :
  path_gate_name (mkRequest m ("/" +:+ n +:+ "/") sid b) = n
  /\ (forall c, c <> "/"%char ->
        path_gate_name (mkRequest m ("/" +:+ n +:+ String c EmptyString) sid b)
        = n +:+ String c EmptyString).
Proof.
  unfold path_gate_name. cbn [pathname]. rewrite !append_String, !append_Empty.
  cbn [strip_leading_slash Ascii.eqb Bool.eqb]. cbv iota.
  split; [apply strip_trailing_slash_app|].
  intros c Hc. rewrite !append_String, !append_Empty.
  now apply strip_trailing_slash_other.
Qed.

(** X10. A request that carries the identifier of a live session is handed to
    that session's transport, whatever name of [config.servers] its path
    gives: the session's own gate name is not compared with it. No
    connection is started, the registry is left alone, and the session
    stays in the table. *)
Theorem live_session_request_goes_to_its_transport
    (req : Request) (config : GuardConfig) (w : World)
    (gateConfig : ServerConfig) (sid : string) (session : Session) :
  path_gate_name req <> EmptyString ->
  get_server (servers config) (path_gate_name req) = Some gateConfig ->
  mcp_session_id req = Some sid -> sid <> EmptyString ->
  sessions w !! sid = Some session ->
  method req <> "DELETE" ->
  (method req = "POST" -> exists parsed, body req = Returns parsed) ->
  exists parsed r w',
    handleRequest host req config w = (r, w')
    /\ r = match reply (transport_handleRequest host (transport session) req parsed) with
           | Returns written => Returns (TransportResponse written)
           | Throws err => Throws err
           end
    /\ trace w' = trace w ++ [Log (LogRequest (method req) (path_gate_name req));
                              TransportHandle (transport session)]
    /\ gates w' = gates w
    /\ objects w' = objects w
    /\ sessions w' !! sid = Some session.
Proof.
  intros Hname Hget Hhead Hsid Hlive Hdel Hbody.
  rewrite (handleRequest_routed host req config w gateConfig Hname Hget).
  rewrite (session_id_some req sid Hhead Hsid), Hlive, (eqb_false _ _ Hdel).
  assert (Hkeep : forall parsed,
             match initialized (transport_handleRequest host (transport session) req parsed)
             with
             | Some sid' => <[sid' := session]> (sessions w)
             | None => sessions w
             end !! sid = Some session).
  { intros parsed.
    destruct (initialized _) as [sid'|]; [|exact Hlive].
    destruct (decide (sid' = sid)) as [->|Hne].
    - apply lookup_insert_eq.
    - rewrite lookup_insert_ne; auto. }
  destruct (String.eqb_spec (method req) "POST") as [Hpost|Hpost].
  - destruct (Hbody Hpost) as [parsed ->]. exists parsed.
    rewrite run_transport_eq. eexists _, _. split; [reflexivity|].
    split; [reflexivity|]. cbn [trace gates objects sessions record]. unfold push.
    rewrite <- app_assoc. repeat split. apply Hkeep.
  - exists None. rewrite run_transport_eq. eexists _, _. split; [reflexivity|].
    split; [reflexivity|]. cbn [trace gates objects sessions record]. unfold push.
    rewrite <- app_assoc. repeat split. apply Hkeep.
Qed.

(** X11. A DELETE on a live session hands the request to the session's
    transport and then drops the session from the table; when the transport
    throws, the session is not dropped. *)
Theorem delete_ends_the_session
    (req : Request) (config : GuardConfig) (w : World)
    (gateConfig : ServerConfig) (sid : string) (session : Session) :
  path_gate_name req <> EmptyString ->
  get_server (servers config) (path_gate_name req) = Some gateConfig ->
  mcp_session_id req = Some sid -> sid <> EmptyString ->
  sessions w !! sid = Some session ->
  method req = "DELETE" ->
  (forall written,
      reply (transport_handleRequest host (transport session) req None) = Returns written ->
      fst (handleRequest host req config w) = Returns (TransportResponse written)
      /\ sessions (snd (handleRequest host req config w)) !! sid = None
      /\ (initialized (transport_handleRequest host (transport session) req None) = None ->
          forall k, k <> sid ->
                    sessions (snd (handleRequest host req config w)) !! k = sessions w !! k))
  /\ (forall err,
         reply (transport_handleRequest host (transport session) req None) = Throws err ->
         fst (handleRequest host req config w) = Throws err
         /\ sessions (snd (handleRequest host req config w)) !! sid = Some session).
Proof.
  intros Hname Hget Hhead Hsid Hlive Hdel.
  rewrite (handleRequest_routed host req config w gateConfig Hname Hget).
  rewrite (session_id_some req sid Hhead Hsid), Hlive, Hdel.
  change (String.eqb "DELETE" "DELETE") with true. cbv iota.
  rewrite run_transport_eq.
  split.
  - intros written ->. cbn [fst snd delete_session sessions].
    split; [reflexivity|]. split; [apply lookup_delete_eq|].
    intros ->. intros k Hk. now rewrite lookup_delete_ne.
  - intros err ->. cbn [fst snd sessions]. split; [reflexivity|].
    destruct (initialized _) as [sid'|]; [|exact Hlive].
    destruct (decide (sid' = sid)) as [->|Hne].
    + apply lookup_insert_eq.
    + rewrite lookup_insert_ne; auto.
Qed.

(** X12. On a configured gate, a request without a session identifier (no
    header, or an empty one) that is not a POST is answered 400; no
    connection is started and neither map changes. *)
Theorem session_must_start_with_post
    (req : Request) (config : GuardConfig) (w : World) (gateConfig : ServerConfig) :
  path_gate_name req <> EmptyString ->
  get_server (servers config) (path_gate_name req) = Some gateConfig ->
  mcp_session_id req = None \/ mcp_session_id req = Some EmptyString ->
  method req <> "POST" ->
  handleRequest host req config w
  = (Returns (JsonResponse 400
                (JObject [("error", JString "New sessions must start with POST")])),
     record (Log (LogRequest (method req) (path_gate_name req))) w).
Proof.
  intros Hname Hget Hhead Hpost.
  rewrite (handleRequest_routed host req config w gateConfig Hname Hget).
  now rewrite (session_id_none req Hhead), (eqb_false _ _ Hpost).
Qed.

End RouterBranches.

Section RouterSessions.
Import Server.
Context {fold : CaseFolding} (host : Host).


(** X13. When the connection for a new session fails, the request is answered
    502 with the failure's message, and neither the registry nor the session
    table has changed: nothing of the failed attempt is kept. *)
Theorem failed_connection_is_answered_502
    (req : Request) (config : GuardConfig) (w w1 : World)
    (gateConfig : ServerConfig) (err : thrown) :
  path_gate_name req <> EmptyString ->
  get_server (servers config) (path_gate_name req) = Some gateConfig ->
  mcp_session_id req = None \/ mcp_session_id req = Some EmptyString ->
  method req = "POST" ->
  getGate host (path_gate_name req) gateConfig
    (record (Log (LogRequest (method req) (path_gate_name req))) w)
  = (Throws err, w1) ->
  handleRequest host req config w
  = (Returns (JsonResponse 502
                (JObject [("error",
                           JString ("Failed to connect to upstream: " +:+ message_of err))])),
     record (Log (LogUpstreamFailed (path_gate_name req) (message_of err))) w1)
  /\ gates w1 = gates w
  /\ sessions w1 = sessions w.
Proof.
  intros Hname Hget Hhead Hpost Hgate.
  rewrite (handleRequest_routed host req config w gateConfig Hname Hget).
  rewrite (session_id_none req Hhead), Hpost.
  change (String.eqb "POST" "POST") with true. cbv iota.
  rewrite new_session_cases. rewrite Hpost in Hgate. rewrite Hgate.
  split; [reflexivity|].
  destruct (getGate_effect host (path_gate_name req) gateConfig
              (record (Log (LogRequest "POST" (path_gate_name req))) w))
    as [r [w' [new [Heq [_ [Hs [_ Hcases]]]]]]].
  rewrite Hgate in Heq. injection Heq as <- <-.
  destruct Hcases as [[Hg _] | [g [Hr _]]]; [|discriminate].
  split; [exact Hg | exact Hs].
Qed.



End RouterSessions.

(** A GET under the live session [s1]. *)
Lemma live_session_request_goes_to_its_transport_witness :
  exists parsed r w',
    @Server.handleRequest AsciiFolding Scenario.up
      (Scenario.request "GET" "/db" (Some "s1")) Scenario.config Scenario.live = (r, w')
    /\ r = match Server.reply
                   (Server.transport_handleRequest Scenario.up
                      (Server.transport Scenario.s1)
                      (Scenario.request "GET" "/db" (Some "s1")) parsed) with
           | Returns written => Returns (Server.TransportResponse written)
           | Throws err => Throws err
           end
    /\ Server.trace w'
       = Server.trace Scenario.live
         ++ [Server.Log (Server.LogRequest
                           (Server.method (Scenario.request "GET" "/db" (Some "s1")))
                           (Server.path_gate_name (Scenario.request "GET" "/db" (Some "s1"))));
             Server.TransportHandle (Server.transport Scenario.s1)]
    /\ Server.gates w' = Server.gates Scenario.live
    /\ Server.objects w' = Server.objects Scenario.live
    /\ Server.sessions w' !! "s1" = Some Scenario.s1.
Proof.
  apply (@live_session_request_goes_to_its_transport AsciiFolding Scenario.up
           (Scenario.request "GET" "/db" (Some "s1")) Scenario.config Scenario.live
           Scenario.db "s1" Scenario.s1).
  - discriminate.
  - reflexivity.
  - reflexivity.
  - discriminate.
  - vm_compute. reflexivity.
  - discriminate.
  - discriminate.
Defined.

(** A DELETE under the live session [s1]. *)
Lemma delete_ends_the_session_witness :
  fst (@Server.handleRequest AsciiFolding Scenario.up
         (Scenario.request "DELETE" "/db" (Some "s1")) Scenario.config Scenario.live)
  = Returns (Server.TransportResponse JNull)
  /\ Server.sessions
       (snd (@Server.handleRequest AsciiFolding Scenario.up
               (Scenario.request "DELETE" "/db" (Some "s1")) Scenario.config Scenario.live))
     !! "s1" = None.
Proof.
  destruct (proj1 (@delete_ends_the_session AsciiFolding Scenario.up
                     (Scenario.request "DELETE" "/db" (Some "s1")) Scenario.config
                     Scenario.live Scenario.db "s1" Scenario.s1
                     ltac:(discriminate) eq_refl eq_refl ltac:(discriminate)
                     ltac:(vm_compute; reflexivity) eq_refl)
             JNull eq_refl) as [Hfst [Hgone _]].
  split; [exact Hfst | exact Hgone].
Defined.

(** A GET on [db] without a session. *)
Lemma session_must_start_with_post_witness :
  @Server.handleRequest AsciiFolding Scenario.up
    (Scenario.request "GET" "/db" None) Scenario.config Scenario.start
  = (Returns (Server.JsonResponse 400
                (JObject [("error", JString "New sessions must start with POST")])),
     Server.record
       (Server.Log (Server.LogRequest
                      (Server.method (Scenario.request "GET" "/db" None))
                      (Server.path_gate_name (Scenario.request "GET" "/db" None))))
       Scenario.start).
Proof.
  apply (@session_must_start_with_post AsciiFolding Scenario.up
           (Scenario.request "GET" "/db" None) Scenario.config Scenario.start Scenario.db).
  - discriminate.
  - reflexivity.
  - left. reflexivity.
  - discriminate.
Defined.

(** A POST on [db] while the upstream is down. *)
Lemma failed_connection_is_answered_502_witness :
  fst (@Server.handleRequest AsciiFolding Scenario.down
         (Scenario.post "/db" None) Scenario.config Scenario.start)
  = Returns (Server.JsonResponse 502
               (JObject [("error",
                          JString ("Failed to connect to upstream: " +:+ "fetch failed"))])).
Proof.
  rewrite (proj1 (@failed_connection_is_answered_502 AsciiFolding Scenario.down
                    (Scenario.post "/db" None) Scenario.config Scenario.start
                    (snd (Server.getGate Scenario.down "db" Scenario.db
                            (Server.record
                               (Server.Log (Server.LogRequest "POST" "db")) Scenario.start)))
                    Scenario.db (ErrorObject "fetch failed")
                    ltac:(discriminate) eq_refl (or_introl eq_refl) eq_refl
                    ltac:(vm_compute; reflexivity))).
  reflexivity.
Defined.




(* ===================================================================== *)
(** * Further properties of the toggle controller                         *)
(* ===================================================================== *)

Section LockRecord.
Import Toggle.

Lemma digit_chars (c : ascii) (d : Z) :
  digit c = Some d ->
  is_space c = false /\ Ascii.eqb c "-" = false /\ Ascii.eqb c "+" = false.
Proof.
  destruct c as [[] [] [] [] [] [] [] []]; vm_compute; intros H;
    try discriminate; auto.
Qed.

Lemma digit_pretty_N_char (x : N) :
  (x < 10)%N -> digit (pretty_N_char x) = Some (Z.of_N x).
Proof.
  intros Hx.
  assert (x = 0 \/ x = 1 \/ x = 2 \/ x = 3 \/ x = 4 \/ x = 5 \/ x = 6 \/ x = 7
          \/ x = 8 \/ x = 9)%N as H by lia.
  repeat (destruct H as [->|H]; [reflexivity|]). now subst.
Qed.

Lemma trim_end_no_space (s : string) : no_space s = true -> trim_end s = s.
Proof.
  induction s as [|c r IH]; [reflexivity|]. simpl.
  intros H. apply andb_true_iff in H as [Hc Hr]. rewrite (IH Hr).
  destruct r; [|reflexivity].
  apply negb_true_iff in Hc. now rewrite Hc.
Qed.

Lemma trim_start_no_space (s : string) : no_space s = true -> trim_start s = s.
Proof.
  destruct s as [|c r]; [reflexivity|]. simpl.
  intros H. apply andb_true_iff in H as [Hc _].
  apply negb_true_iff in Hc. now rewrite Hc.
Qed.

Lemma no_space_pretty_N_go (x : N) :
  forall s, no_space s = true -> no_space (pretty_N_go x s) = true.
Proof.
  induction (N.lt_wf_0 x) as [x _ IH]. intros s Hs.
  destruct (N.eq_dec x 0%N) as [->|Hx]; [now rewrite pretty_N_go_0|].
  rewrite pretty_N_go_step by lia.
  apply IH; [apply N.div_lt; lia|].
  simpl. rewrite Hs, andb_true_r.
  assert (Hd : digit (pretty_N_char (x mod 10)%N) = Some (Z.of_N (x mod 10)%N)).
  { apply digit_pretty_N_char. apply N.mod_lt. discriminate. }
  destruct (digit_chars _ _ Hd) as [-> _]. reflexivity.
Qed.

(** Reading back the digits [pretty_N_go] writes in front of [s]. *)
Lemma digits_pretty_N_go (x : N) :
  (0 < x)%N ->
  exists k : Z,
    forall s acc,
      digits (pretty_N_go x s) acc
      = digits s (Some (default 0 acc * k + Z.of_N x))%Z.
Proof.
  induction (N.lt_wf_0 x) as [x _ IH]. intros Hx.
  assert (Hd : digit (pretty_N_char (x mod 10)%N) = Some (Z.of_N (x mod 10)%N)).
  { apply digit_pretty_N_char. apply N.mod_lt. discriminate. }
  assert (Hsplit : Z.of_N x = (10 * Z.of_N (x / 10)%N + Z.of_N (x mod 10)%N)%Z).
  { change 10%Z with (Z.of_N 10). rewrite <- N2Z.inj_mul, <- N2Z.inj_add. f_equal.
    apply (N.div_mod x 10). discriminate. }
  destruct (N.eq_dec (x / 10)%N 0%N) as [Hz|Hnz].
  - exists 10%Z. intros s acc.
    rewrite pretty_N_go_step by lia. rewrite Hz, pretty_N_go_0. simpl digits.
    rewrite Hd. f_equal. f_equal. rewrite Hsplit, Hz.
    generalize (default 0%Z acc) (Z.of_N (x mod 10)%N). intros a d. lia.
  - destruct (IH (x / 10)%N) as [k Hk];
      [apply N.div_lt; lia | now apply N.neq_0_lt_0 |].
    exists (10 * k)%Z. intros s acc.
    rewrite pretty_N_go_step by lia. rewrite Hk. simpl digits.
    rewrite Hd. f_equal. f_equal. simpl default. rewrite Hsplit.
    generalize (default 0%Z acc) (Z.of_N (x mod 10)%N) (Z.of_N (x / 10)%N).
    intros a d q. lia.
Qed.

Lemma pretty_N_go_first (x : N) :
  (0 < x)%N ->
  forall s, exists c r d, pretty_N_go x s = String c r /\ digit c = Some d.
Proof.
  induction (N.lt_wf_0 x) as [x _ IH]. intros Hx s.
  assert (Hd : digit (pretty_N_char (x mod 10)%N) = Some (Z.of_N (x mod 10)%N)).
  { apply digit_pretty_N_char. apply N.mod_lt. discriminate. }
  rewrite pretty_N_go_step by lia.
  destruct (N.eq_dec (x / 10)%N 0%N) as [Hz|Hnz].
  - rewrite Hz, pretty_N_go_0. eauto.
  - apply IH; [apply N.div_lt; lia | now apply N.neq_0_lt_0].
Qed.

Lemma parseInt_pretty_positive (p : positive) :
  parseInt (pretty (Npos p)) = Some (Zpos p)
  /\ no_space (pretty (Npos p)) = true
  /\ digits (pretty (Npos p)) None = Some (Zpos p).
Proof.
  unfold pretty, pretty_N. destruct (decide (N.pos p = 0%N)) as [H|_]; [discriminate|].
  destruct (digits_pretty_N_go (Npos p)) as [k Hk]; [lia|].
  assert (Hdigits : digits (pretty_N_go (N.pos p) "") None = Some (Z.pos p)).
  { rewrite Hk. simpl. reflexivity. }
  assert (Hns : no_space (pretty_N_go (N.pos p) "") = true)
    by now apply no_space_pretty_N_go.
  split; [|split; assumption].
  unfold parseInt. rewrite (trim_start_no_space _ Hns).
  destruct (pretty_N_go_first (Npos p) ltac:(lia) "") as [c [r [d [Heq Hd]]]].
  rewrite Heq in *. destruct (digit_chars c d Hd) as [_ [-> ->]]. exact Hdigits.
Qed.

Lemma parseInt_trim_pretty (z : Z) : parseInt (trim (pretty z)) = Some z.
Proof.
  destruct z as [|p|p].
  - reflexivity.
  - destruct (parseInt_pretty_positive p) as [Hparse [Hns _]].
    unfold trim. change (pretty (Z.pos p)) with (pretty (Npos p)).
    now rewrite (trim_start_no_space _ Hns), (trim_end_no_space _ Hns).
  - destruct (parseInt_pretty_positive p) as [_ [Hns Hdigits]].
    change (pretty (Z.neg p)) with ("-" +:+ pretty (Npos p)).
    assert (Hns' : no_space ("-" +:+ pretty (Npos p)) = true).
    { rewrite append_String, append_Empty. simpl. exact Hns. }
    unfold trim. rewrite (trim_start_no_space _ Hns'), (trim_end_no_space _ Hns').
    unfold parseInt. rewrite (trim_start_no_space _ Hns').
    rewrite append_String, append_Empty.
    change (Ascii.eqb "-" "-") with true. cbv iota.
    rewrite Hdigits. reflexivity.
Qed.


End LockRecord.

Section StatusCheck.
Import Toggle.
Context (host : Host).

(** The status check, by the state of the lock record and of the machine. *)
Lemma getRunningPid_cases (port : Z) (w : World) :
  match pid_file w with
  | None => getRunningPid host port w = (Returns None, w)
  | Some text =>
      match parseInt (trim text) with
      | None =>
          getRunningPid host port w = (Returns None, mkWorld None (trace w ++ [Unlink]))
      | Some pid =>
          if process_alive host pid then
            match fetch_status host port with
            | Returns true =>
                getRunningPid host port w
                = (Returns (Some pid),
                   mkWorld (Some text) (trace w ++ [Kill pid Probe; Fetch port]))
            | _ =>
                getRunningPid host port w
                = (Returns None,
                   mkWorld None (trace w ++ [Kill pid Probe; Fetch port; Unlink]))
            end
          else
            getRunningPid host port w
            = (Returns None, mkWorld None (trace w ++ [Kill pid Probe; Unlink]))
      end
  end.
Proof.
  destruct w as [file t]. cbn [pid_file trace].
  destruct file as [text|]; [|reflexivity].
  assert (Hstart : forall k : option Z -> M World (option Z),
             (let* record := gets pid_file in
              match record with
              | None => ret None
              | Some text' => k (parseInt (trim text'))
              end) (mkWorld (Some text) t)
             = k (parseInt (trim text)) (mkWorld (Some text) t)) by reflexivity.
  destruct (parseInt (trim text)) as [pid|] eqn:Hparse.
  - destruct (process_alive host pid) eqn:Halive;
      [destruct (fetch_status host port) as [[]|err] eqn:Hfetch|];
      unfold getRunningPid, bind at 1, gets; cbn [pid_file]; rewrite Hparse;
      unfold isProcessRunning, process_kill, try_catch, bind, note, modify, ret, throw,
        settle;
      cbn [pid_file trace]; rewrite Halive; cbn [negb]; cbv beta iota;
      rewrite ?Hfetch; cbv beta iota; cbn [pid_file trace];
      rewrite ?unlinkSync_present, <- ?app_assoc; reflexivity.
  - unfold getRunningPid, bind at 1, gets. cbn [pid_file]. rewrite Hparse.
    unfold bind. rewrite unlinkSync_present. reflexivity.
Qed.



(** X19. Toggling twice: with no lock record, the toggle starts the proxy and
    records the child's process identifier; when that process then runs and
    its status endpoint answers, the next toggle sends SIGTERM to exactly
    that process and removes the record. *)
Theorem toggle_on_then_off (configPath : string) (port : Z) (t : list event) :
  spawned_pid host configPath <> 0%Z ->
  process_alive host (spawned_pid host configPath) = true ->
  fetch_status host port = Returns true ->
  toggle host configPath port (mkWorld None t)
  = (Returns tt,
     mkWorld (Some (pretty (spawned_pid host configPath)))
             (t ++ [Spawn configPath;
                    WriteFile (pretty (spawned_pid host configPath));
                    ConsoleLog "MCP Guard on"]))
  /\ toggle host configPath port
       (mkWorld (Some (pretty (spawned_pid host configPath)))
                (t ++ [Spawn configPath;
                       WriteFile (pretty (spawned_pid host configPath));
                       ConsoleLog "MCP Guard on"]))
     = (Returns tt,
        mkWorld None
                ((t ++ [Spawn configPath;
                        WriteFile (pretty (spawned_pid host configPath));
                        ConsoleLog "MCP Guard on"])
                 ++ [Kill (spawned_pid host configPath) Probe; Fetch port;
                     Kill (spawned_pid host configPath) SIGTERM; Unlink;
                     ConsoleLog "MCP Guard off"])).
Proof.
  intros Hpid Halive Hfetch. split.
  - unfold toggle, bind at 1.
    pose proof (getRunningPid_cases port (mkWorld None t)) as Hc. cbn [pid_file] in Hc.
    rewrite Hc. cbv beta iota.
    unfold turnOn, writeFileSync, bind, note, modify. cbn [pid_file trace].
    rewrite <- !app_assoc. reflexivity.
  - set (w1 := mkWorld _ _).
    unfold toggle, bind at 1.
    pose proof (getRunningPid_cases port w1) as Hc. subst w1. cbn [pid_file trace] in Hc.
    rewrite parseInt_trim_pretty, Halive, Hfetch in Hc. rewrite Hc. cbv beta iota.
    destruct (Z.eqb_spec (spawned_pid host configPath) 0) as [H0|_]; [contradiction|].
    unfold turnOff, process_kill, bind at 1 2, note, modify. cbn [pid_file trace].
    rewrite Halive. unfold ret at 1. cbv beta iota.
    unfold bind at 1. rewrite unlinkSync_present. cbv beta iota.
    unfold note, modify. cbn [pid_file trace].
    rewrite <- !app_assoc. reflexivity.
Qed.

End StatusCheck.

(** Toggling on a machine where the started proxy runs and answers. *)
Lemma toggle_on_then_off_witness :
  Toggle.toggle Machine.live "guard.json" 6427 (Toggle.mkWorld None [])
  = (Returns tt,
     Toggle.mkWorld (Some (pretty (Toggle.spawned_pid Machine.live "guard.json")))
       ([] ++ [Toggle.Spawn "guard.json";
               Toggle.WriteFile (pretty (Toggle.spawned_pid Machine.live "guard.json"));
               Toggle.ConsoleLog "MCP Guard on"]))
  /\ Toggle.toggle Machine.live "guard.json" 6427
       (Toggle.mkWorld (Some (pretty (Toggle.spawned_pid Machine.live "guard.json")))
          ([] ++ [Toggle.Spawn "guard.json";
                  Toggle.WriteFile (pretty (Toggle.spawned_pid Machine.live "guard.json"));
                  Toggle.ConsoleLog "MCP Guard on"]))
     = (Returns tt,
        Toggle.mkWorld None
          (([] ++ [Toggle.Spawn "guard.json";
                   Toggle.WriteFile (pretty (Toggle.spawned_pid Machine.live "guard.json"));
                   Toggle.ConsoleLog "MCP Guard on"])
           ++ [Toggle.Kill (Toggle.spawned_pid Machine.live "guard.json") Toggle.Probe;
               Toggle.Fetch 6427;
               Toggle.Kill (Toggle.spawned_pid Machine.live "guard.json") Toggle.SIGTERM;
               Toggle.Unlink;
               Toggle.ConsoleLog "MCP Guard off"])).
Proof.
  apply (toggle_on_then_off Machine.live "guard.json" 6427 []).
  - discriminate.
  - reflexivity.
  - reflexivity.
Defined.

(* ===================================================================== *)
(** * Properties of the command line                                      *)
(* ===================================================================== *)

Section Arguments.
Import Cli.

Lemma parse_from_plain (args : list string) :
  forall acc,
    forallb plain_flag args = true ->
    parse_from args acc
    = Done (mkArgs (configPath acc)
                   (serve acc || existsb is_serve args)
                   (debug acc || existsb is_debug args)).
Proof.
  induction args as [|arg rest IH]; intros acc Hplain.
  - simpl. rewrite !orb_false_r. now destruct acc.
  - simpl in Hplain. apply andb_true_iff in Hplain as [Harg Hrest].
    unfold plain_flag in Harg. apply negb_true_iff in Harg.
    apply orb_false_iff in Harg as [Harg Hh]. apply orb_false_iff in Harg as [Harg Hhelp].
    apply orb_false_iff in Harg as [Hconfig Hc].
    simpl parse_from. unfold is_serve, is_debug. simpl existsb.
    destruct (String.eqb arg "--serve") eqn:Hs.
    + apply String.eqb_eq in Hs. subst arg.
      rewrite (IH _ Hrest). simpl. now rewrite orb_true_r.
    + destruct (String.eqb arg "-d" || String.eqb arg "--debug") eqn:Hd.
      * rewrite (IH _ Hrest). simpl. now rewrite orb_true_r.
      * rewrite Hconfig, Hc, Hhelp, Hh. simpl. now rewrite (IH _ Hrest).
Qed.

(** The loop takes its arguments one or two at a time; the statements about
    it go by the number of arguments left. *)
Lemma parse_from_ind (P : list string -> Prop) :
  P [] ->
  (forall arg rest, P rest -> (forall path rest', rest = path :: rest' -> P rest') ->
                    P (arg :: rest)) ->
  forall args, P args.
Proof.
  intros Hnil Hcons.
  assert (H : forall n args, length args <= n -> P args).
  { induction n as [|n IH]; intros [|arg rest] Hlen; simpl in Hlen; try exact Hnil;
      [lia|].
    apply Hcons.
    - apply IH. lia.
    - intros path rest' ->. apply IH. simpl in Hlen. lia. }
  intros args. apply (H (length args)). lia.
Qed.

Lemma parse_from_app (xs : list string) :
  forall ys acc acc',
    parse_from xs acc = Done acc' ->
    parse_from (xs ++ ys) acc = parse_from ys acc'.
Proof.
  induction xs as [|arg rest IHrest IHskip] using parse_from_ind; intros ys acc acc' Hdone.
  - simpl in *. now injection Hdone as ->.
  - simpl in *.
    destruct (String.eqb arg "--serve"); [now apply IHrest|].
    destruct (String.eqb arg "-d" || String.eqb arg "--debug"); [now apply IHrest|].
    destruct (String.eqb arg "--config" || String.eqb arg "-c").
    + destruct rest as [|path rest']; [discriminate|]. simpl.
      now apply (IHskip path rest' eq_refl).
    + destruct (String.eqb arg "--help" || String.eqb arg "-h"); [discriminate|].
      now apply IHrest.
Qed.



(** X20. A command line made of flags only (no option with a value, no help)
    is never refused: [serve] is set exactly when [--serve] is among the
    arguments, [debug] exactly when [-d] or [--debug] is, whatever else
    stands there and in whatever order; the first two entries of [argv] are
    not looked at. *)
Theorem flags_are_read_in_any_order (node script : string) (args : list string) :
  forallb plain_flag args = true ->
  parseArgs (node :: script :: args)
  = Done (mkArgs None (existsb is_serve args) (existsb is_debug args)).
Proof.
  intros Hplain. unfold parseArgs. simpl drop.
  now rewrite (parse_from_plain args _ Hplain).
Qed.


(** X22. Arguments are taken from left to right: when a first run of
    arguments is accepted, the arguments after it are read as if they came
    first, starting from what the first run set. So a [--config] with its
    path at the end overrides every path given before, and keeps the flags. *)
Theorem arguments_are_read_left_to_right
    (xs : list string) (acc acc' : Args) :
  parse_from xs acc = Done acc' ->
  (forall ys, parse_from (xs ++ ys) acc = parse_from ys acc')
  /\ (forall p, parse_from (xs ++ ["--config"; p]) acc
                = Done (mkArgs (Some p) (serve acc') (debug acc'))).
Proof.
  intros Hdone. split.
  - intros ys. now apply parse_from_app.
  - intros p. rewrite (parse_from_app xs _ _ _ Hdone). reflexivity.
Qed.

End Arguments.

(* ===================================================================== *)
(** * Properties of the configuration search and of loadConfig            *)
(* ===================================================================== *)

Section ConfigSearch.
Import Cli.
Context (host : Host).

Lemma app_eq_self_nil {A} (l r : list A) : l ++ r = l -> r = [].
Proof.
  intros H. apply (f_equal (@length A)) in H. rewrite length_app in H.
  destruct r; [reflexivity | simpl in H; lia].
Qed.

(** The loop returns a candidate it saw exist, in a directory that is the
    start or one above it. *)
Lemma climb_sound (up : list string) (p : path) :
  climb host up = Some p ->
  existsSync host p = true
  /\ exists d r, rev up = d ++ r /\ p = join d CONFIG_NAME.
Proof.
  induction up as [|x parent IH]; simpl.
  - destruct (existsSync host (join [] CONFIG_NAME)) eqn:He; [|discriminate].
    intros [= <-]. split; [exact He|]. exists [], []. auto.
  - destruct (existsSync host (join (rev parent ++ [x]) CONFIG_NAME)) eqn:He.
    + intros [= <-]. split; [exact He|]. exists (rev parent ++ [x]), [].
      now rewrite app_nil_r.
    + destruct (path_eqb (rev parent ++ [x]) (home host)); [discriminate|].
      intros Hp. destruct (IH Hp) as [Hex [d [r [Hd ->]]]].
      split; [exact Hex|]. exists d, (r ++ [x]). now rewrite Hd, app_assoc.
Qed.

(** From a directory at or below home, the loop looks at nothing above home. *)
Lemma climb_under_home (rr : list string) (p : path) :
  climb host (rr ++ rev (home host)) = Some p ->
  exists r1 r2, rev rr = r1 ++ r2 /\ p = join (home host ++ r1) CONFIG_NAME.
Proof.
  induction rr as [|x rr IH].
  - simpl app. intros Hp. exists [], []. split; [reflexivity|].
    rewrite app_nil_r.
    destruct (rev (home host)) as [|y parent] eqn:Hrev; simpl in Hp.
    + assert (home host = []) as Hh.
      { apply (f_equal (@rev string)) in Hrev. now rewrite rev_involutive in Hrev. }
      rewrite Hh. destruct (existsSync host (join [] CONFIG_NAME)); [|discriminate].
      now injection Hp as <-.
    + assert (rev parent ++ [y] = home host) as Hh.
      { apply (f_equal (@rev string)) in Hrev. now rewrite rev_involutive in Hrev. }
      rewrite Hh in Hp.
      destruct (existsSync host (join (home host) CONFIG_NAME)); [now injection Hp as <-|].
      unfold path_eqb in Hp. rewrite bool_decide_eq_true_2 in Hp by reflexivity.
      discriminate.
  - simpl. rewrite rev_app_distr, rev_involutive.
    destruct (existsSync host (join ((home host ++ rev rr) ++ [x]) CONFIG_NAME)).
    + intros [= <-]. exists (rev rr ++ [x]), []. rewrite app_nil_r.
      split; [reflexivity|]. now rewrite app_assoc.
    + destruct (path_eqb ((home host ++ rev rr) ++ [x]) (home host)); [discriminate|].
      intros Hp. destruct (IH Hp) as [r1 [r2 [Hr ->]]].
      exists r1, (r2 ++ [x]). split; [|reflexivity]. now rewrite Hr, app_assoc.
Qed.

(** The nearest configuration on the way up is the one the loop returns. *)
Lemma climb_nearest (d : path) (rr : list string) :
  existsSync host (join d CONFIG_NAME) = true ->
  (forall r1 r2, rev rr = r1 ++ r2 -> r1 <> [] ->
                 existsSync host (join (d ++ r1) CONFIG_NAME) = false
                 /\ d ++ r1 <> home host) ->
  climb host (rr ++ rev d) = Some (join d CONFIG_NAME).
Proof.
  intros Hd. induction rr as [|x rr IH]; intros Hbetween.
  - simpl app. destruct (rev d) as [|y parent] eqn:Hrev; simpl.
    + assert (d = []) as ->.
      { apply (f_equal (@rev string)) in Hrev. now rewrite rev_involutive in Hrev. }
      now rewrite Hd.
    + assert (rev parent ++ [y] = d) as ->.
      { apply (f_equal (@rev string)) in Hrev. now rewrite rev_involutive in Hrev. }
      now rewrite Hd.
  - simpl. rewrite rev_app_distr, rev_involutive, <- app_assoc.
    destruct (Hbetween (rev rr ++ [x]) []) as [Hno Hhome].
    { simpl. now rewrite app_nil_r. }
    { destruct (rev rr); discriminate. }
    rewrite Hno. unfold path_eqb. rewrite bool_decide_eq_false_2 by exact Hhome.
    apply IH. intros r1 r2 Hr Hne. apply (Hbetween r1 (r2 ++ [x])); [|exact Hne].
    simpl. now rewrite Hr, app_assoc.
Qed.

(** X23. The configuration the search returns exists, and it is either the
    global one or stands in the working directory or in a directory above
    it. When the search returns nothing, there is no configuration in the
    working directory and no global one. *)
Theorem found_configuration_exists :
  (forall p, findConfigUp host = Some p ->
             existsSync host p = true
             /\ (p = GLOBAL_CONFIG host
                 \/ exists d r, cwd host = d ++ r /\ p = join d CONFIG_NAME))
  /\ (findConfigUp host = None ->
      existsSync host (join (cwd host) CONFIG_NAME) = false
      /\ existsSync host (GLOBAL_CONFIG host) = false).
Proof.
  unfold findConfigUp. split.
  - intros p. destruct (climb host (rev (cwd host))) as [c|] eqn:Hclimb.
    + intros [= <-]. destruct (climb_sound _ _ Hclimb) as [Hex [d [r [Hd ->]]]].
      split; [exact Hex|]. right. exists d, r. rewrite rev_involutive in Hd. auto.
    + destruct (existsSync host (GLOBAL_CONFIG host)) eqn:Hg; [|discriminate].
      intros [= <-]. auto.
  - destruct (climb host (rev (cwd host))) as [c|] eqn:Hclimb; [discriminate|].
    destruct (existsSync host (GLOBAL_CONFIG host)) eqn:Hg; [discriminate|].
    intros _. split; [|reflexivity].
    destruct (rev (cwd host)) as [|x parent] eqn:Hrev; simpl in Hclimb.
    + assert (cwd host = []) as ->.
      { apply (f_equal (@rev string)) in Hrev. now rewrite rev_involutive in Hrev. }
      destruct (existsSync host (join [] CONFIG_NAME)); [discriminate | reflexivity].
    + assert (rev parent ++ [x] = cwd host) as Hc.
      { apply (f_equal (@rev string)) in Hrev. now rewrite rev_involutive in Hrev. }
      rewrite Hc in Hclimb.
      destruct (existsSync host (join (cwd host) CONFIG_NAME)); [discriminate | reflexivity].
Qed.

(** X24. The nearest configuration wins: a configuration in a directory [d]
    at or above the working directory is the one returned when no directory
    between the two (the working directory included) has one or is the home
    directory. In particular a configuration in the working directory is
    always the one returned. *)
Theorem nearest_configuration_wins (d r : path) :
  cwd host = d ++ r ->
  existsSync host (join d CONFIG_NAME) = true ->
  (forall r1 r2, r = r1 ++ r2 -> r1 <> [] ->
                 existsSync host (join (d ++ r1) CONFIG_NAME) = false
                 /\ d ++ r1 <> home host) ->
  findConfigUp host = Some (join d CONFIG_NAME).
Proof.
  intros Hcwd Hd Hbetween. unfold findConfigUp.
  rewrite Hcwd, rev_app_distr.
  rewrite (climb_nearest d (rev r) Hd); [reflexivity|].
  intros r1 r2 Hr. rewrite rev_involutive in Hr. now apply (Hbetween r1 r2).
Qed.

(** X25. Under the home directory the search never leaves it: when the
    working directory is the home directory or below it, the configuration
    returned stands in a directory between the two, both included; no
    directory above the home directory is looked at. *)
Theorem search_stops_at_home (rest : path) (p : path) :
  cwd host = home host ++ rest ->
  findConfigUp host = Some p ->
  exists r1 r2, rest = r1 ++ r2 /\ p = join (home host ++ r1) CONFIG_NAME.
Proof.
  intros Hcwd. unfold findConfigUp. rewrite Hcwd, rev_app_distr.
  destruct (climb host (rev rest ++ rev (home host))) as [c|] eqn:Hclimb.
  - intros [= <-]. destruct (climb_under_home _ _ Hclimb) as [r1 [r2 [Hr ->]]].
    rewrite rev_involutive in Hr. eauto.
  - destruct (existsSync host (GLOBAL_CONFIG host)); [|discriminate].
    intros [= <-]. exists [], rest. split; [reflexivity|].
    unfold GLOBAL_CONFIG. now rewrite app_nil_r.
Qed.

End ConfigSearch.

Section LoadConfig.
Import Cli.
Context (host : Host).

Lemma dirname_of_reversed (x : string) (parent : list string) :
  dirname (rev (x :: parent)) = rev parent.
Proof. unfold dirname. simpl. apply removelast_last. Qed.

Lemma own_property_set_same (props : list (string * json)) (k : string) (v : json) :
  Server.own_property (set_property props k v) k = Some v.
Proof.
  unfold Server.own_property.
  induction props as [|[k' v'] rest IH]; simpl.
  - now rewrite String.eqb_refl.
  - destruct (String.eqb k' k) eqn:Hk; simpl.
    + now rewrite String.eqb_refl.
    + now rewrite Hk.
Qed.

Lemma own_property_set_other (props : list (string * json)) (k k0 : string) (v : json) :
  k0 <> k ->
  Server.own_property (set_property props k v) k0 = Server.own_property props k0.
Proof.
  intros Hne. unfold Server.own_property.
  induction props as [|[k' v'] rest IH]; simpl.
  - assert (String.eqb k k0 = false) as -> by (apply String.eqb_neq; congruence).
    reflexivity.
  - destruct (String.eqb k' k) eqn:Hk; simpl.
    + apply String.eqb_eq in Hk. subst k'.
      assert (String.eqb k k0 = false) as -> by (apply String.eqb_neq; congruence).
      reflexivity.
    + destruct (String.eqb k' k0); [reflexivity | exact IH].
Qed.

Lemma check_config_done (config cfg : json) :
  check_config config = Done cfg ->
  exists original props servers,
    config = JObject original
    /\ cfg = JObject props
    /\ Server.own_property props "port" = Some (effective_port original)
    /\ truthy (effective_port original) = true
    /\ Server.own_property props "servers" = Some servers
    /\ Server.own_property original "servers" = Some servers
    /\ truthy servers = true
    /\ has_keys servers = true
    /\ (forall k, k <> "port" ->
                  Server.own_property props k = Server.own_property original k).
Proof.
  destruct config as [| | | |items|original]; try discriminate.
  unfold check_config. cbv zeta.
  set (props := match Server.own_property original "port" with
                | Some p => if truthy p then original
                            else set_property original "port" (JNumber 6427)
                | None => set_property original "port" (JNumber 6427)
                end).
  assert (Hport : Server.own_property props "port" = Some (effective_port original)
                  /\ truthy (effective_port original) = true
                  /\ forall k, k <> "port" ->
                               Server.own_property props k = Server.own_property original k).
  { subst props. unfold effective_port.
    destruct (Server.own_property original "port") as [p|] eqn:Hp;
      [destruct (truthy p) eqn:Ht|].
    - auto.
    - split; [apply own_property_set_same|]. split; [reflexivity|].
      intros k Hk. now apply own_property_set_other.
    - split; [apply own_property_set_same|]. split; [reflexivity|].
      intros k Hk. now apply own_property_set_other. }
  destruct Hport as [Hport [Htruthy Hother]].
  destruct (Server.own_property props "servers") as [servers|] eqn:Hs; [|discriminate].
  destruct (truthy servers && has_keys servers) eqn:Hok; [|discriminate].
  apply andb_true_iff in Hok as [Ht Hk].
  intros [= <-]. exists original, props, servers.
  repeat split; auto. rewrite <- Hother; [exact Hs | discriminate].
Qed.

(** X26. A configuration [loadConfig] returns is usable as it stands: it is
    the object read from the resolved path with, under [port], the port of
    the file when that is truthy and 6427 otherwise (also for a port 0), and
    with every other property as in the file; and its [servers] is truthy
    and has at least one key. *)
Theorem loaded_configuration_is_usable (configPath : string) (cfg : json) :
  loadConfig host configPath = Done cfg ->
  exists raw original props servers,
    existsSync host (resolve host configPath) = true
    /\ readFileSync host (resolve host configPath) = Returns raw
    /\ parse host raw = Returns (JObject original)
    /\ cfg = JObject props
    /\ Server.own_property props "port"
       = Some (match Server.own_property original "port" with
               | Some p => if truthy p then p else JNumber 6427
               | None => JNumber 6427
               end)
    /\ Server.own_property props "servers" = Some servers
    /\ Server.own_property original "servers" = Some servers
    /\ truthy servers = true
    /\ has_keys servers = true
    /\ (forall k, k <> "port" ->
                  Server.own_property props k = Server.own_property original k).
Proof.
  unfold loadConfig. cbv zeta.
  destruct (existsSync host (resolve host configPath)) eqn:Hex; [|discriminate].
  simpl negb. cbv iota.
  destruct (readFileSync host (resolve host configPath)) as [raw|err] eqn:Hread;
    [|discriminate].
  destruct (parse host raw) as [config|err] eqn:Hparse; [|discriminate].
  intros Hcheck.
  destruct (check_config_done config cfg Hcheck)
    as [original [props [servers [-> [-> [Hport [_ [Hs [Hso [Ht [Hk Hother]]]]]]]]]]].
  exists raw, original, props, servers. repeat split; auto.
Qed.

(** X27. [loadConfig] stops the process under code 1 only, and for two
    reasons only: the resolved path does not exist, or what was parsed has
    no usable [servers] (it is an array, or an object whose [servers] is
    missing, falsy or without keys). *)
Theorem loadConfig_exits_for_a_missing_file_or_no_server
    (configPath : string) (code : Z) (line : Line) :
  loadConfig host configPath = Exit code line ->
  code = 1%Z
  /\ ((line = ConfigNotFound (resolve host configPath)
       /\ existsSync host (resolve host configPath) = false)
      \/ (line = MustHaveServer
          /\ existsSync host (resolve host configPath) = true
          /\ exists raw config,
               readFileSync host (resolve host configPath) = Returns raw
               /\ parse host raw = Returns config
               /\ match config with
                  | JArray _ => True
                  | JObject original =>
                      match Server.own_property original "servers" with
                      | Some servers => truthy servers && has_keys servers = false
                      | None => True
                      end
                  | _ => False
                  end)).
Proof.
  unfold loadConfig. cbv zeta.
  destruct (existsSync host (resolve host configPath)) eqn:Hex; simpl negb; cbv iota.
  2: { intros [= <- <-]. auto. }
  destruct (readFileSync host (resolve host configPath)) as [raw|err] eqn:Hread;
    [|discriminate].
  destruct (parse host raw) as [config|err] eqn:Hparse; [|discriminate].
  intros Hcheck.
  assert (Hres : code = 1%Z /\ line = MustHaveServer
                 /\ match config with
                    | JArray _ => True
                    | JObject original =>
                        match Server.own_property original "servers" with
                        | Some servers => truthy servers && has_keys servers = false
                        | None => True
                        end
                    | _ => False
                    end).
  { destruct config as [| | | |items|original]; try discriminate.
    - injection Hcheck as <- <-. auto.
    - unfold check_config in Hcheck. cbv zeta in Hcheck.
      assert (Hsame : forall props,
                 (props = original \/ props = set_property original "port" (JNumber 6427)) ->
                 Server.own_property props "servers"
                 = Server.own_property original "servers").
      { intros props [-> | ->]; [reflexivity|].
        apply own_property_set_other. discriminate. }
      rewrite Hsame in Hcheck.
      2: { destruct (Server.own_property original "port") as [p|];
             [destruct (truthy p)|]; auto. }
      destruct (Server.own_property original "servers") as [servers|].
      + destruct (truthy servers && has_keys servers); [discriminate|].
        injection Hcheck as <- <-. auto.
      + injection Hcheck as <- <-. auto. }
  destruct Hres as [-> [-> Hshape]].
  split; [reflexivity|]. right. split; [reflexivity|]. split; [reflexivity|].
  exists raw, config. auto.
Qed.

End LoadConfig.

(** Flags in the order debug, serve. *)
Lemma flags_are_read_in_any_order_witness :
  Cli.parseArgs ["node"; "mcp-guard"; "-d"; "--serve"; "--verbose"]
  = Cli.Done (Cli.mkArgs None
                (existsb is_serve ["-d"; "--serve"; "--verbose"])
                (existsb is_debug ["-d"; "--serve"; "--verbose"])).
Proof.
  apply (flags_are_read_in_any_order "node" "mcp-guard" ["-d"; "--serve"; "--verbose"]).
  reflexivity.
Defined.


(** Two [--config] options: the second path is the one kept. *)
Lemma arguments_are_read_left_to_right_witness :
  Cli.parse_from (["--config"; "a.json"; "-d"] ++ ["--config"; "b.json"])
    (Cli.mkArgs None false false)
  = Cli.Done (Cli.mkArgs (Some "b.json")
                (Cli.serve (Cli.mkArgs (Some "a.json") false true))
                (Cli.debug (Cli.mkArgs (Some "a.json") false true))).
Proof.
  apply (proj2 (arguments_are_read_left_to_right ["--config"; "a.json"; "-d"]
                  (Cli.mkArgs None false false) (Cli.mkArgs (Some "a.json") false true)
                  eq_refl)).
Defined.

(** From [proj/src/lib] the configuration of [proj] is found. *)
Lemma nearest_configuration_wins_witness :
  Cli.findConfigUp Project.host
  = Some (Cli.join ["home"; "u"; "proj"] Cli.CONFIG_NAME).
Proof.
  apply (nearest_configuration_wins Project.host ["home"; "u"; "proj"] ["src"; "lib"]).
  - reflexivity.
  - vm_compute. reflexivity.
  - intros r1 r2 Hr Hne.
    destruct r1 as [|a [|b [|c r1]]]; [contradiction| | |discriminate Hr].
    + injection Hr as <- _. split; [vm_compute; reflexivity | discriminate].
    + injection Hr as <- <- _. split; [vm_compute; reflexivity | discriminate].
Defined.

(** The configuration found from [proj/src/lib] stands at or below home. *)
Lemma search_stops_at_home_witness :
  exists r1 r2,
    ["proj"; "src"; "lib"] = r1 ++ r2
    /\ ["home"; "u"; "proj"; ".mcp-guard.json"]
       = Cli.join (Cli.home Project.host ++ r1) Cli.CONFIG_NAME.
Proof.
  apply (search_stops_at_home Project.host ["proj"; "src"; "lib"]
           ["home"; "u"; "proj"; ".mcp-guard.json"]).
  - reflexivity.
  - vm_compute. reflexivity.
Defined.

(** The project's file, whose port is 0, loads with the port 6427. *)
Lemma loaded_configuration_is_usable_witness :
  exists raw original props servers,
    Cli.existsSync Project.host (Cli.resolve Project.host ".mcp-guard.json") = true
    /\ Cli.readFileSync Project.host (Cli.resolve Project.host ".mcp-guard.json")
       = Returns raw
    /\ Cli.parse Project.host raw = Returns (JObject original)
    /\ JObject [("port", JNumber 6427);
                ("servers", JObject [("db", JObject [("url", JString "http://up/db")])])]
       = JObject props
    /\ Server.own_property props "port"
       = Some (match Server.own_property original "port" with
               | Some p => if truthy p then p else JNumber 6427
               | None => JNumber 6427
               end)
    /\ Server.own_property props "servers" = Some servers
    /\ Server.own_property original "servers" = Some servers
    /\ truthy servers = true
    /\ Cli.has_keys servers = true
    /\ (forall k, k <> "port" ->
                  Server.own_property props k = Server.own_property original k).
Proof.
  apply (loaded_configuration_is_usable Project.host ".mcp-guard.json").
  vm_compute. reflexivity.
Defined.

(** A path that does not exist. *)
Lemma loadConfig_exits_for_a_missing_file_or_no_server_witness :
  1%Z = 1%Z
  /\ ((Cli.ConfigNotFound ["home"; "u"; "proj"; "nope.json"]
       = Cli.ConfigNotFound (Cli.resolve Project.host "nope.json")
       /\ Cli.existsSync Project.host (Cli.resolve Project.host "nope.json") = false)
      \/ (Cli.ConfigNotFound ["home"; "u"; "proj"; "nope.json"] = Cli.MustHaveServer
          /\ Cli.existsSync Project.host (Cli.resolve Project.host "nope.json") = true
          /\ exists raw config,
               Cli.readFileSync Project.host (Cli.resolve Project.host "nope.json")
               = Returns raw
               /\ Cli.parse Project.host raw = Returns config
               /\ match config with
                  | JArray _ => True
                  | JObject original =>
                      match Server.own_property original "servers" with
                      | Some servers => truthy servers && Cli.has_keys servers = false
                      | None => True
                      end
                  | _ => False
                  end)).
Proof.
  apply (loadConfig_exits_for_a_missing_file_or_no_server Project.host "nope.json" 1
           (Cli.ConfigNotFound ["home"; "u"; "proj"; "nope.json"])).
  vm_compute. reflexivity.
Defined.

(* ===================================================================== *)
(** * Connection attempts under interleaving                              *)
(* ===================================================================== *)

Section Interleaving.
Import Server.
Context (host : Host).

Lemma attempts_apart_extend (w : World) (new : list event) (n : nat) :
  attempts_apart w ->
  connection_attempts new = [] ->
  objects w <= n ->
  attempts_apart (mkWorld (sessions w) (gates w) n (trace w ++ new)).
Proof.
  intros [Hnodup Hlt] Hnew Hn. unfold attempts_apart. cbn [trace objects].
  rewrite connection_attempts_app, Hnew, app_nil_r.
  split; [exact Hnodup|].
  eapply Forall_impl; [exact Hlt|]. simpl. intros; lia.
Qed.

Lemma attempts_apart_start (w : World) (u : string) :
  attempts_apart w ->
  attempts_apart (mkWorld (sessions w) (gates w) (S (objects w))
                          (trace w ++ [UpstreamConnect (objects w) u])).
Proof.
  intros [Hnodup Hlt]. unfold attempts_apart. cbn [trace objects].
  rewrite connection_attempts_app. simpl. rewrite map_app. simpl.
  split.
  - apply NoDup_app. split; [exact Hnodup|]. split.
    + intros c Hc Hin. apply list_elem_of_singleton in Hin. subst c.
      rewrite Forall_forall in Hlt. specialize (Hlt _ Hc). lia.
    + apply NoDup_singleton.
  - apply Forall_app. split.
    + eapply Forall_impl; [exact Hlt|]. simpl. intros; lia.
    + repeat constructor.
Qed.

Lemma resume_keeps_attempts_apart (call : GetGateCall) (w : World) :
  attempts_apart w -> attempts_apart (snd (resume host call w)).
Proof.
  intros Hw. destruct call as [name config|name client u|result]; simpl.
  - destruct (gates w !! name); [exact Hw|].
    destruct (connectUpstream_start_cases host name config w)
      as [[u [_ [_ ->]]] | [_ ->]]; simpl; [|exact Hw].
    now apply attempts_apart_start.
  - unfold bind.
    destruct (connectUpstream_finish_cases host name client u w)
      as [r [new [-> [Hnew _]]]].
    destruct r as [gate|err]; simpl;
      apply (attempts_apart_extend w new (objects w) Hw Hnew); lia.
  - exact Hw.
Qed.

(** X28. Whatever the interleaving of the calls of [getGate] in flight, every
    connection attempt is made on a client of its own: no client object is
    used for two attempts. *)
Theorem every_attempt_has_its_own_client
    (schedule : list nat) (calls : list GetGateCall) (w : World) :
  attempts_apart w ->
  attempts_apart (snd (run host schedule calls w)).
Proof.
  revert calls w. induction schedule as [|i rest IH]; intros calls w Hw; simpl.
  - exact Hw.
  - destruct (calls !! i) as [call|]; [|now apply IH].
    pose proof (resume_keeps_attempts_apart call w Hw) as Hstep.
    destruct (resume host call w) as [call' w']. now apply IH.
Qed.

End Interleaving.

(** The two overlapping calls for [db] use the clients 0 and 1. *)
Lemma every_attempt_has_its_own_client_witness :
  attempts_apart
    (snd (Server.run Scenario.up [0; 1; 0; 1]
            [Server.Called "db" Scenario.db; Server.Called "db" Scenario.db]
            Scenario.start)).
Proof.
  apply (every_attempt_has_its_own_client Scenario.up).
  split; simpl; constructor.
Defined.
